(** * secrethelper: the CloudFormation custom-resource handler of
    [secretGenerator.go], embedded as state-passing code over a heap of
    [secretGenerator] structs and an external world (entropy source, crypto
    library, SSM parameter store, EC2 key import). *)

From Stdlib Require Import ZArith String Ascii List Lia.
From Stdlib.Strings Require Import Byte.
From stdpp Require Import base option list gmap strings.

Local Open Scope string_scope.
Local Open Scope list_scope.

(** ** Go values *)

(** [error] values.  [errors.New] builds the validation faults; the AWS
    clients answer with [awserr] values. *)
Inductive error : Type :=
| errors_New (text : string)
| awserr_New (code message : string).

(** The [Error()] method. *)
Definition Error (e : error) : string :=
  match e with
  | errors_New text => text
  | awserr_New code message => code +:+ ": " +:+ message
  end.

Global Instance error_eq_dec : EqDecision error.
Proof. solve_decision. Defined.

(** [responseSecret]: every field is a pointer, [None] is the nil pointer. *)
Record responseSecret : Type := mkResponseSecret {
  KeyLength : option Z;
  PrivateKey : option string;
  PublicKey : option string;
  Password : option string
}.

Global Instance responseSecret_eq_dec : EqDecision responseSecret.
Proof. solve_decision. Defined.

(** The dynamic values an [interface{}] holds in this program: what a
    property bag can carry ([VOther] stands for slices, maps and any other
    dynamic type, by its name), and the [responseSecret] that [Process]
    stores under ["Response"]. *)
Inductive value : Type :=
| VNil
| VBool (b : bool)
| VInt (n : Z)
| VFloat64 (bits : Z)
| VString (s : string)
| VOther (dynamic_type : string)
| VResponseSecret (r : responseSecret).

(** The fields of [cfn.Event] that the handler reads.  A nil property map
    reads like the empty one. *)
Record Event : Type := mkEvent {
  ResourceType : string;
  ResourceProperties : gmap string value
}.

(** [m[key].(string)] with the comma-ok form: a missing key yields the nil
    interface, on which the assertion fails with the zero value. *)
Definition assert_string (v : option value) : string * bool :=
  match v with
  | Some (VString s) => (s, true)
  | _ => ("", false)
  end.

(** [m[key].(int)] with the comma-ok form. *)
Definition assert_int (v : option value) : Z * bool :=
  match v with
  | Some (VInt n) => (n, true)
  | _ => (0%Z, false)
  end.

(** ** Collaborators *)

(** Client handles: the non-nil interface values [main.go] builds with
    [ec2.New] and [ssm.New]. *)
Inductive EC2API : Type := ec2_client (id : nat).
Inductive SSMAPI : Type := ssm_client (id : nat).

Global Instance EC2API_eq_dec : EqDecision EC2API.
Proof. solve_decision. Defined.
Global Instance SSMAPI_eq_dec : EqDecision SSMAPI.
Proof. solve_decision. Defined.

Record PutParameterInput : Type := mkPutParameterInput {
  pp_Description : string;
  pp_Name : string;
  pp_Type : string;
  pp_Value : string;
  pp_Overwrite : bool
}.

Record ImportKeyPairInput : Type := mkImportKeyPairInput {
  ik_KeyName : string;
  ik_PublicKeyMaterial : list byte
}.

(** [ssm.ParameterTypeSecureString] *)
Definition ssm_ParameterTypeSecureString : string := "SecureString".

(** One entry per call that leaves the process, with the fault it answered
    ([None]: the call succeeded). *)
Inductive call : Type :=
| call_rand_Read (n : nat) (answer : option error)
| call_GenerateKey (bits : Z) (answer : option error)
| call_PutParameter (c : SSMAPI) (input : PutParameterInput) (answer : option error)
| call_ImportKeyPair (c : EC2API) (input : ImportKeyPairInput) (answer : option error).

(** Everything outside the repository: the entropy source, the crypto and
    encoding libraries and the two AWS services.  [World] is their state;
    the pure library functions do not touch it. *)
Record Env : Type := mkEnv {
  World : Type;
  RSAPrivateKey : Type;
  SSHPublicKey : Type;
  (* crypto/rand.Read: a source of bytes, or a fault *)
  rand_Read : nat -> World -> (nat -> byte) * option error * World;
  (* rsa.GenerateKey(rand.Reader, bits) *)
  rsa_GenerateKey : Z -> World -> (RSAPrivateKey + error) * World;
  (* the Validate method of rsa.PrivateKey *)
  rsa_Validate : RSAPrivateKey -> option error;
  (* ssh.NewPublicKey(&privateKey.PublicKey) *)
  ssh_NewPublicKey : RSAPrivateKey -> SSHPublicKey + error;
  ssh_MarshalAuthorizedKey : SSHPublicKey -> list byte;
  x509_MarshalPKCS1PrivateKey : RSAPrivateKey -> list byte;
  (* pem.EncodeToMemory of a block without headers: type, bytes *)
  pem_EncodeToMemory : string -> list byte -> list byte;
  (* PutParameterRequest followed by Send *)
  ssm_PutParameter : SSMAPI -> PutParameterInput -> World -> option error * World;
  (* ImportKeyPairRequest followed by Send *)
  ec2_ImportKeyPair : EC2API -> ImportKeyPairInput -> World -> option error * World
}.

(** ** The generator struct and the heap *)

Record secretGenerator : Type := mkSecretGenerator {
  EC2Client : EC2API;
  SSMClient : SSMAPI;
  Name : string;
  publicKey : option string;
  alphabet : string;
  passwordLength : Z;
  validationError : option error
}.

Definition set_Name (v : string) (g : secretGenerator) : secretGenerator :=
  mkSecretGenerator (EC2Client g) (SSMClient g) v (publicKey g) (alphabet g)
    (passwordLength g) (validationError g).
Definition set_publicKey (v : option string) (g : secretGenerator) : secretGenerator :=
  mkSecretGenerator (EC2Client g) (SSMClient g) (Name g) v (alphabet g)
    (passwordLength g) (validationError g).
Definition set_alphabet (v : string) (g : secretGenerator) : secretGenerator :=
  mkSecretGenerator (EC2Client g) (SSMClient g) (Name g) (publicKey g) v
    (passwordLength g) (validationError g).
Definition set_passwordLength (v : Z) (g : secretGenerator) : secretGenerator :=
  mkSecretGenerator (EC2Client g) (SSMClient g) (Name g) (publicKey g) (alphabet g)
    v (validationError g).
Definition set_validationError (v : option error) (g : secretGenerator) : secretGenerator :=
  mkSecretGenerator (EC2Client g) (SSMClient g) (Name g) (publicKey g) (alphabet g)
    (passwordLength g) v.

(** A [*secretGenerator]; an address outside the heap is a dangling or nil
    pointer. *)
Abbreviation loc := positive.

Inductive panic : Type :=
| nil_pointer_dereference
| integer_divide_by_zero
| makeslice_len_out_of_range
| index_out_of_range.

(** The largest allocation the Go runtime grants ([maxAlloc] on 64-bit
    Linux): [make([]byte, n)] panics beyond it.  Running out of memory
    below that bound ends the process and is outside this model. *)
Definition maxAlloc : Z := 2 ^ 48.

Section Machine.
Context (env : Env).

Record State : Type := mkState {
  heap : gmap positive secretGenerator;
  world : World env;
  calls : list call  (* most recent first *)
}.

Inductive outcome (A : Type) : Type :=
| Returns (a : A) (st : State)
| Panics (p : panic) (st : State).
Arguments Returns {A} a st.
Arguments Panics {A} p st.

Definition final {A} (o : outcome A) : State :=
  match o with Returns _ st => st | Panics _ st => st end.

Definition returned {A} (o : outcome A) : option A :=
  match o with Returns a _ => Some a | Panics _ _ => None end.

Definition M (A : Type) : Type := State -> outcome A.

Definition ret {A} (a : A) : M A := fun st => Returns a st.

Definition bind {A B} (c : M A) (k : A -> M B) : M B :=
  fun st => match c st with
            | Returns a st' => k a st'
            | Panics p st' => Panics p st'
            end.

Definition throw {A} (p : panic) : M A := fun st => Panics p st.

End Machine.

Arguments Returns {env A} a st.
Arguments Panics {env A} p st.
Arguments final {env A} o.
Arguments returned {env A} o.
Arguments ret {env A} a.
Arguments bind {env A B} c k.
Arguments throw {env A} p.
Arguments heap {env} s.
Arguments world {env} s.
Arguments calls {env} s.
Arguments mkState {env} heap world calls.

Notation "x <- c ;; k" := (bind c (fun x => k))
  (at level 20, c at level 99, k at level 200, only parsing).
Notation "' pat <- c ;; k" := (bind c (fun x => match x with pat => k end))
  (at level 20, pat pattern, c at level 99, k at level 200, only parsing).
Notation "c ;;; k" := (bind c (fun _ => k))
  (at level 100, k at level 200, right associativity, only parsing).

Section Program.
Context (env : Env).

(** *** Heap and world primitives *)

(** [*l]: read through a pointer. *)
Definition load (l : loc) : M env secretGenerator :=
  fun st => match heap st !! l with
            | Some g => Returns g st
            | None => Panics nil_pointer_dereference st
            end.

(** [l.field = v]: write through a pointer. *)
Definition modify (l : loc) (f : secretGenerator -> secretGenerator) : M env unit :=
  fun st => match heap st !! l with
            | Some g => Returns tt (mkState (<[l := f g]> (heap st)) (world st) (calls st))
            | None => Panics nil_pointer_dereference st
            end.

(** [&secretGenerator{...}]: a fresh address. *)
Definition alloc (g : secretGenerator) : M env loc :=
  fun st => let l := fresh (dom (heap st)) in
            Returns l (mkState (<[l := g]> (heap st)) (world st) (calls st)).

(** An external call: the world answers, the call is logged. *)
Definition external {A} (f : World env -> A * World env) (entry : A -> call) : M env A :=
  fun st => let '(a, w) := f (world st) in
            Returns a (mkState (heap st) w (entry a :: calls st)).

(** *** newSecret *)

Definition newSecret (ec2Client : EC2API) (ssmClient : SSMAPI) : M env loc :=
  alloc (mkSecretGenerator ec2Client ssmClient "" None "" 0%Z None).

(** *** validateEvent *)

Definition default_alphabet : string :=
  "0123456789ABCDEFGHIJKLMNOPQRSTUVWXYZabcdefghijklmnopqrstuvwxyz!@#$%^&*()_+-[]?;,.".

Definition validateEvent (sg : loc) (event : Event) : M env loc :=
  g <- load sg ;;
  trg <- alloc (mkSecretGenerator (EC2Client g) (SSMClient g) "" None "" 0%Z None) ;;
  let '(keyName, ok) := assert_string (ResourceProperties event !! "Name") in
  keyName <- (if ok then ret keyName
              else modify trg (set_validationError
                                 (Some (errors_New "Missing required property 'Name'"))) ;;;
                   ret "Unknown") ;;
  modify trg (set_Name keyName) ;;;
  let '(pk, ok) := assert_string (ResourceProperties event !! "PublicKey") in
  (if ok then modify trg (set_publicKey (Some pk)) else ret tt) ;;;
  let '(alpha, ok) := assert_string (ResourceProperties event !! "Alphabet") in
  let alpha := if ok then alpha else default_alphabet in
  modify trg (set_alphabet alpha) ;;;
  let '(length, ok) := assert_int (ResourceProperties event !! "Length") in
  let length := if ok then length else 30%Z in
  modify trg (set_passwordLength length) ;;;
  ret trg.

(** *** createSSMParameter *)

Definition createSSMParameter (sg : loc) (key value description : string)
    (override : bool) : M env (option error) :=
  g <- load sg ;;
  match validationError g with
  | Some e => ret (Some e)
  | None =>
    let input := mkPutParameterInput description key ssm_ParameterTypeSecureString
                   value override in
    external (ssm_PutParameter env (SSMClient g) input)
             (call_PutParameter (SSMClient g) input)
  end.

(** *** handleRSAKey *)

Definition fault_of {A} (r : A + error) : option error :=
  match r with inl _ => None | inr e => Some e end.

Definition handleRSAKey (sg : loc) : M env (option responseSecret * option error) :=
  g <- load sg ;;
  match validationError g with
  | Some e => ret (None, Some e)
  | None =>
    let keyLength := 2048%Z in
    r <- external (rsa_GenerateKey env keyLength)
                  (fun r => call_GenerateKey keyLength (fault_of r)) ;;
    match r with
    | inr e => ret (None, Some e)
    | inl privateKey =>
      match rsa_Validate env privateKey with
      | Some e => ret (None, Some e)
      | None =>
        match ssh_NewPublicKey env privateKey with
        | inr e => ret (None, Some e)
        | inl publicKeyRSA =>
          let publicKey := ssh_MarshalAuthorizedKey env publicKeyRSA in
          let privatePEM :=
            pem_EncodeToMemory env "RSA PRIVATE KEY"
              (x509_MarshalPKCS1PrivateKey env privateKey) in
          let resPrivateKey := string_of_list_byte privatePEM in
          let resPublicKey := string_of_list_byte publicKey in
          g <- load sg ;;
          err <- createSSMParameter sg (Name g) resPrivateKey "RSA private key" false ;;
          ret (Some (mkResponseSecret (Some keyLength) (Some resPrivateKey)
                       (Some resPublicKey) None), err)
        end
      end
    end
  end.

(** *** handleKeyPair *)

Definition handleKeyPair (sg : loc) : M env (option error) :=
  g <- load sg ;;
  match validationError g with
  | Some e => ret (Some e)
  | None =>
    match publicKey g with
    | None =>
      modify sg (set_validationError
                   (Some (errors_New "Missing required property 'PublicKey'"))) ;;;
      g <- load sg ;;
      ret (validationError g)
    | Some pk =>
      let input := mkImportKeyPairInput (Name g) (list_byte_of_string pk) in
      external (ec2_ImportKeyPair env (EC2Client g) input)
               (call_ImportKeyPair (EC2Client g) input)
    end
  end.

(** *** handlePassword *)

(** [make([]byte, n)] *)
Definition make_bytes (n : Z) : M env (list byte) :=
  if decide (n < 0 \/ maxAlloc < n)%Z then throw makeslice_len_out_of_range
  else ret (replicate (Z.to_nat n) x00).

(** [byte(l)]: the conversion keeps the low eight bits. *)
Definition byte_of_int (l : Z) : Z := (l mod 256)%Z.

(** [b % m] on bytes. *)
Definition byte_rem (b : byte) (m : Z) : M env Z :=
  if decide (m = 0)%Z then throw integer_divide_by_zero
  else ret (Z.of_N (Byte.to_N b) mod m)%Z.

(** [s[i]]: the byte at an index of a string, bounds-checked. *)
Definition string_index (s : string) (i : Z) : M env byte :=
  if decide (i < 0)%Z then throw index_out_of_range
  else match String.get (Z.to_nat i) s with
       | Some c => ret (byte_of_ascii c)
       | None => throw index_out_of_range
       end.

(** [for i, b := range buff { buff[i] = sg.alphabet[b%byte(l)] }]: the
    length of [buff] is taken once, [b] is read at each index in turn. *)
Fixpoint password_loop (sg : loc) (l : Z) (remaining i : nat) (buff : list byte)
    : M env (list byte) :=
  match remaining with
  | O => ret buff
  | S remaining' =>
    match buff !! i with
    | None => throw index_out_of_range
    | Some b =>
      g <- load sg ;;
      k <- byte_rem b (byte_of_int l) ;;
      c <- string_index (alphabet g) k ;;
      password_loop sg l remaining' (S i) (<[i := c]> buff)
    end
  end.

Definition handlePassword (sg : loc) : M env (option responseSecret * option error) :=
  g <- load sg ;;
  match validationError g with
  | Some e => ret (None, Some e)
  | None =>
    buff <- make_bytes (passwordLength g) ;;
    '(src, err) <- external (rand_Read env (length buff))
                            (fun r => call_rand_Read (length buff) (snd r)) ;;
    match err with
    | Some e => ret (None, Some e)
    | None =>
      let buff := src <$> seq 0 (length buff) in
      g <- load sg ;;
      let l := Z.of_nat (String.length (alphabet g)) in
      buff <- password_loop sg l (length buff) 0 buff ;;
      let password := string_of_list_byte buff in
      g <- load sg ;;
      err <- createSSMParameter sg (Name g) password "Password" false ;;
      ret (Some (mkResponseSecret None None None (Some password)), err)
    end
  end.

(** *** Process *)

Definition Process (sg : loc) (event : Event)
    : M env (string * gmap string value * option error) :=
  sg <- validateEvent sg event ;;
  let data : gmap string value := {["Response" := VNil]} in
  '(response, physicalResourceID, err) <-
    (if decide (ResourceType event = "Custom::RSAKey") then
       '(response, err) <- handleRSAKey sg ;;
       g <- load sg ;;
       ret (response, "RSAKey:" +:+ Name g, err)
     else if decide (ResourceType event = "Custom::KeyPair") then
       err <- handleKeyPair sg ;;
       g <- load sg ;;
       ret (None, "KeyPair:" +:+ Name g, err)
     else if decide (ResourceType event = "Custom::Password") then
       '(response, err) <- handlePassword sg ;;
       g <- load sg ;;
       ret (response, "Password:" +:+ Name g, err)
     else
       g <- load sg ;;
       ret (None, "Unknown:" +:+ Name g, Some (errors_New "Unknown ResourceType"))) ;;
  let data : gmap string value :=
    match response with
    | Some r => {["Response" := VResponseSecret r]}
    | None => data
    end in
  ret (physicalResourceID, data, err).

(** *** main.go *)

(** [handler], for the two package-level clients. *)
Definition handler (ec2Client : EC2API) (ssmClient : SSMAPI) (event : Event)
    : M env (string * gmap string value * option error) :=
  sg <- newSecret ec2Client ssmClient ;;
  Process sg event.

End Program.

(** ** A concrete environment

    The collaborators of the repository's tests: the parameter store refuses
    the name [FAIL_TO_CREATE], the key import refuses [FAIL_TO_IMPORT], both
    with the same AWS error.  The entropy source counts upwards from the
    number of bytes drawn so far; keys are numbered by that count. *)

Definition failToImportKeyPair : string := "FAIL_TO_IMPORT".
Definition failToCreateParam : string := "FAIL_TO_CREATE".
Definition awsError : error := awserr_New "error code" "error message".

Definition byte_of_nat (n : nat) : byte :=
  default x00 (Byte.of_N (N.of_nat n mod 256)).

Definition mock : Env :=
  mkEnv nat nat nat
    (fun n w => (fun i => byte_of_nat (w + i), None, w + n))
    (fun bits w => (inl w, S w))
    (fun k => None)
    (fun k => inl k)
    (fun pub => app (list_byte_of_string "ssh-rsa ") [byte_of_nat (65 + pub); x0a])
    (fun k => [byte_of_nat k])
    (fun ty der => app (list_byte_of_string ("-----BEGIN " +:+ ty +:+ "-----")) (x0a :: der))
    (fun c input w =>
       (if decide (pp_Name input = failToCreateParam) then Some awsError else None, w))
    (fun c input w =>
       (if decide (ik_KeyName input = failToImportKeyPair) then Some awsError else None, w)).

(** The state after [newSecret(&mockEC2Client{}, &mockSSMClient{})] in an
    empty heap: the generator sits at address 1. *)
Definition st0 : State mock :=
  final (newSecret mock (ec2_client 0) (ssm_client 0) (@mkState mock ∅ 0 [])).

Definition props (l : list (string * value)) : gmap string value := list_to_map l.

(** ** Vocabulary of the statements *)

(** The name [validateEvent] settles on. *)
Definition validatedName (event : Event) : string :=
  let '(keyName, ok) := assert_string (ResourceProperties event !! "Name") in
  if ok then keyName else "Unknown".

(** The struct [validateEvent] leaves at the fresh address
    (lemma [validateEvent_run]). *)
Definition validated (ec2 : EC2API) (ssm : SSMAPI) (event : Event) : secretGenerator :=
  let p := ResourceProperties event in
  mkSecretGenerator ec2 ssm
    (validatedName event)
    (let '(pk, ok) := assert_string (p !! "PublicKey") in if ok then Some pk else None)
    (let '(alpha, ok) := assert_string (p !! "Alphabet") in
     if ok then alpha else default_alphabet)
    (let '(n, ok) := assert_int (p !! "Length") in if ok then n else 30%Z)
    (let '(_, ok) := assert_string (p !! "Name") in
     if ok then None else Some (errors_New "Missing required property 'Name'")).

(** The numeric value of a byte. *)
Definition byte_value (b : byte) : Z := Z.of_N (Byte.to_N b).

(** The byte that one round of the password loop writes for [b], with
    divisor [m]. *)
Definition pick (A : string) (m : Z) (b : byte) : byte :=
  match String.get (Z.to_nat (byte_value b mod m)) A with
  | Some c => byte_of_ascii c
  | None => x00
  end.

Definition digits : string := "0123456789".
Definition uppercase : string := "ABCDEFGHIJKLMNOPQRSTUVWXYZ".
Definition lowercase : string := "abcdefghijklmnopqrstuvwxyz".
Definition punctuation : string := "!@#$%^&*()_+-[]?;,.".

(** The password drawn from the byte source [src]. *)
Definition password_of (g : secretGenerator) (src : nat -> byte) : string :=
  string_of_list_byte
    (pick (alphabet g) (byte_of_int (Z.of_nat (String.length (alphabet g))))
       <$> (src <$> seq 0 (Z.to_nat (passwordLength g)))).

Definition password_input (g : secretGenerator) (password : string) : PutParameterInput :=
  mkPutParameterInput "Password" (Name g) ssm_ParameterTypeSecureString password false.

Section Vocabulary.
Context {env : Env}.

(** The computation leaves the heap as it found it, however it ends. *)
Definition keeps_heap {A} (c : M env A) : Prop :=
  forall st, heap (final (c st)) = heap st.

(** The computation writes at most the struct at [l]. *)
Definition writes_only {A} (l : loc) (c : M env A) : Prop :=
  forall st (l' : loc), l' <> l -> heap (final (c st)) !! l' = heap st !! l'.

(** Two states agree as seen from [l1] and [l2]: the same struct behind the
    two pointers, the same world, the same log. *)
Definition sim (l1 l2 : loc) (s1 s2 : State env) : Prop :=
  heap s1 !! l1 = heap s2 !! l2 /\ world s1 = world s2 /\ calls s1 = calls s2.

Definition osim {A} (l1 l2 : loc) (o1 o2 : outcome env A) : Prop :=
  match o1, o2 with
  | Returns a1 s1, Returns a2 s2 => a1 = a2 /\ sim l1 l2 s1 s2
  | Panics p1 s1, Panics p2 s2 => p1 = p2 /\ sim l1 l2 s1 s2
  | _, _ => False
  end.

Definition msim {A} (l1 l2 : loc) (c1 c2 : M env A) : Prop :=
  forall s1 s2, sim l1 l2 s1 s2 -> osim l1 l2 (c1 s1) (c2 s2).

(** What the caller and the outside world see of a run. *)
Definition observe {A} (o : outcome env A) : (A + panic) * World env * list call :=
  match o with
  | Returns a st => (inl a, world st, calls st)
  | Panics p st => (inr p, world st, calls st)
  end.

(** The state in which the dispatcher starts. *)
Definition validated_state st g event : State env :=
  mkState (<[fresh (dom (heap st)) := validated (EC2Client g) (SSMClient g) event]> (heap st))
          (world st) (calls st).

End Vocabulary.

(** The two encoders of the crypto libraries never produce an empty
    result: a PEM block opens with its BEGIN line, an authorized key with
    its key type. *)
Definition encoders_nonempty (env : Env) : Prop :=
  (forall ty der, pem_EncodeToMemory env ty der <> []) /\
  (forall pub, ssh_MarshalAuthorizedKey env pub <> []).

(** The part of [Process] that follows [validateEvent], on the validated
    context [sg]. *)
Definition dispatch (env : Env) (sg : loc) (event : Event)
    : M env (string * gmap string value * option error) :=
  let data : gmap string value := {["Response" := VNil]} in
  '(response, physicalResourceID, err) <-
    (if decide (ResourceType event = "Custom::RSAKey") then
       '(response, err) <- handleRSAKey env sg ;;
       g <- load env sg ;;
       ret (response, "RSAKey:" +:+ Name g, err)
     else if decide (ResourceType event = "Custom::KeyPair") then
       err <- handleKeyPair env sg ;;
       g <- load env sg ;;
       ret (None, "KeyPair:" +:+ Name g, err)
     else if decide (ResourceType event = "Custom::Password") then
       '(response, err) <- handlePassword env sg ;;
       g <- load env sg ;;
       ret (response, "Password:" +:+ Name g, err)
     else
       g <- load env sg ;;
       ret (None, "Unknown:" +:+ Name g, Some (errors_New "Unknown ResourceType"))) ;;
  let data : gmap string value :=
    match response with
    | Some r => {["Response" := VResponseSecret r]}
    | None => data
    end in
  ret (physicalResourceID, data, err).

(** ** Contexts and events of the test runs *)

(** The struct [newSecret] builds for the test clients. *)
Definition generator0 : secretGenerator :=
  mkSecretGenerator (ec2_client 0) (ssm_client 0) "" None "" 0%Z None.

(** A state holding one context, at address 1. *)
Definition context_state (g : secretGenerator) : State mock :=
  @mkState mock {[ 1%positive := g ]} 0 [].

Definition context_of (event : Event) : secretGenerator :=
  validated (ec2_client 0) (ssm_client 0) event.

Definition event_KeyPair_K : Event :=
  mkEvent "Custom::KeyPair" (props [("Name", VString "K")]).
Definition event_Bogus_foo : Event :=
  mkEvent "Custom::Bogus" (props [("Name", VString "foo")]).
Definition event_RSAKey_empty : Event := mkEvent "Custom::RSAKey" (props []).
Definition event_Password_K : Event :=
  mkEvent "Custom::Password" (props [("Name", VString "K")]).
Definition event_Password_empty_alphabet (n : Z) : Event :=
  mkEvent "Custom::Password"
    (props [("Name", VString "K"); ("Alphabet", VString ""); ("Length", VInt n)]).
Definition event_RSAKey_fail : Event :=
  mkEvent "Custom::RSAKey" (props [("Name", VString failToCreateParam)]).
Definition event_Password_fail : Event :=
  mkEvent "Custom::Password" (props [("Name", VString failToCreateParam)]).

Definition fault_Name : error := errors_New "Missing required property 'Name'".

Definition rsa_private_key_0 : string :=
  string_of_list_byte
    (pem_EncodeToMemory mock "RSA PRIVATE KEY" (x509_MarshalPKCS1PrivateKey mock 0)).

Definition rsa_store_input : PutParameterInput :=
  mkPutParameterInput "RSA private key" failToCreateParam ssm_ParameterTypeSecureString
    rsa_private_key_0 false.

Definition password_store_input : PutParameterInput :=
  mkPutParameterInput "Password" failToCreateParam ssm_ParameterTypeSecureString
    "0123456789ABCDEFGHIJKLMNOPQRST" false.

(** ** The start-up run of main.go

    The second [main] of main.go runs the handler twice before it starts
    serving: it generates an RSA key, then imports the public key it got
    back.  What it prints decides how it ends. *)

Inductive main_end : Type :=
| printed_error (e : error)          (* fmt.Println(err); return *)
| serving (printed : option value).  (* lambda.Start, after fmt.Print if any *)

Definition main (env : Env) (ec2Client : EC2API) (ssmClient : SSMAPI) : M env main_end :=
  '(_, resp, err) <-
    handler env ec2Client ssmClient
      (mkEvent "Custom::RSAKey" {["Name" := VString "/KEY_RSA"]}) ;;
  match err with
  | Some e => ret (printed_error e)
  | None =>
    match resp !! "Response" with
    | Some (VResponseSecret data) =>
      match PublicKey data with
      | None => throw nil_pointer_dereference
      | Some publicKey =>
        '(_, resp, err) <-
          handler env ec2Client ssmClient
            (mkEvent "Custom::KeyPair"
               (<["Name" := VString "KEYSSM"]> {["PublicKey" := VString publicKey]})) ;;
        match err with
        | Some e => ret (printed_error e)
        | None => ret (serving (resp !! "Response"))
        end
      end
    | _ => ret (serving None)
    end
  end.

(** ** Vocabulary of the further properties *)

(** The PEM text of a private key and the authorized-key text of a public
    key, as [handleRSAKey] builds them. *)
Definition private_pem (env : Env) (k : RSAPrivateKey env) : string :=
  string_of_list_byte
    (pem_EncodeToMemory env "RSA PRIVATE KEY" (x509_MarshalPKCS1PrivateKey env k)).

Definition authorized_key (env : Env) (pub : SSHPublicKey env) : string :=
  string_of_list_byte (ssh_MarshalAuthorizedKey env pub).

(** The store request of [handleRSAKey] and the import request of
    [handleKeyPair]. *)
Definition rsa_input (name priv : string) : PutParameterInput :=
  mkPutParameterInput "RSA private key" name ssm_ParameterTypeSecureString priv false.

Definition import_input (name pk : string) : ImportKeyPairInput :=
  mkImportKeyPairInput name (list_byte_of_string pk).

(** Calls that reach one of the two AWS collaborators. *)
Definition is_collaborator_call (c : call) : bool :=
  match c with
  | call_PutParameter _ _ _ | call_ImportKeyPair _ _ _ => true
  | _ => false
  end.

Definition is_recognized (kind : string) : Prop :=
  kind = "Custom::RSAKey" \/ kind = "Custom::KeyPair" \/ kind = "Custom::Password".




(** ** A faulty crypto library, for the runs that fail

    The test collaborators again, with an entropy source and a key
    generator that fail in world 0, a key validation that rejects key 1 and
    an SSH conversion that rejects key 2. *)

Definition cryptoError : error := errors_New "crypto fault".

Definition mock_faulty : Env :=
  mkEnv nat nat nat
    (fun n w => (fun i => byte_of_nat (w + i),
                 if Nat.eqb w 0 then Some cryptoError else None, S w))
    (fun bits w => (if Nat.eqb w 0 then inr cryptoError else inl w, S w))
    (fun k => if Nat.eqb k 1 then Some cryptoError else None)
    (fun k => if Nat.eqb k 2 then inr cryptoError else inl k)
    (ssh_MarshalAuthorizedKey mock)
    (x509_MarshalPKCS1PrivateKey mock)
    (pem_EncodeToMemory mock)
    (ssm_PutParameter mock)
    (ec2_ImportKeyPair mock).

(** A state of the faulty world [w] holding one context, at address 1. *)
Definition faulty_state (g : secretGenerator) (w : nat) : State mock_faulty :=
  @mkState mock_faulty {[ 1%positive := g ]} w [].

Definition event_KeyPair_full : Event :=
  mkEvent "Custom::KeyPair"
    (props [("Name", VString "SomeKey"); ("PublicKey", VString "Somekey")]).
Definition event_RSAKey_some : Event :=
  mkEvent "Custom::RSAKey" (props [("Name", VString "some")]).
Definition event_Password_custom : Event :=
  mkEvent "Custom::Password"
    (props [("Name", VString "K"); ("PublicKey", VInt 7);
            ("Alphabet", VString "ab"); ("Length", VInt 4)]).
Definition event_Password_negative : Event :=
  mkEvent "Custom::Password" (props [("Name", VString "K"); ("Length", VInt (-1))]).

(** ** Running the primitives *)

Section Running.
Context {env : Env}.
Implicit Types (st : State env) (g : secretGenerator).

Lemma load_run st (l : loc) g :
  heap st !! l = Some g -> load env l st = Returns g st.
Proof. intros H. unfold load. now rewrite H. Qed.

Lemma modify_run st (l : loc) g f :
  heap st !! l = Some g ->
  modify env l f st = Returns tt (mkState (<[l := f g]> (heap st)) (world st) (calls st)).
Proof. intros H. unfold modify. now rewrite H. Qed.

Lemma modify_fresh_run (h : gmap positive secretGenerator) (w : World env) cs (l : loc) g f :
  modify env l f (mkState (<[l := g]> h) w cs) = Returns tt (mkState (<[l := f g]> h) w cs).
Proof.
  unfold modify. simpl. rewrite lookup_insert_eq. now rewrite insert_insert_eq.
Qed.

Lemma validateEvent_run st (sg : loc) g event :
  heap st !! sg = Some g ->
  validateEvent env sg event st =
    Returns (fresh (dom (heap st)))
      (mkState (<[fresh (dom (heap st)) := validated (EC2Client g) (SSMClient g) event]> (heap st))
               (world st) (calls st)).
Proof.
  intros H. unfold validateEvent, validated, validatedName, bind at 1.
  rewrite (load_run _ _ _ H). unfold bind at 1, alloc. cbn [heap world calls].
  set (trg := fresh (dom (heap st))).
  destruct (assert_string (ResourceProperties event !! "Name")) as [keyName [|]];
  destruct (assert_string (ResourceProperties event !! "PublicKey")) as [pk [|]];
  destruct (assert_string (ResourceProperties event !! "Alphabet")) as [alpha [|]];
  destruct (assert_int (ResourceProperties event !! "Length")) as [n [|]];
  unfold bind, ret; rewrite ?modify_fresh_run; reflexivity.
Qed.

End Running.

(** ** Strings and byte slices *)

Lemma string_get_lt (s : string) (n : nat) :
  n < String.length s -> exists c, String.get n s = Some c.
Proof.
  revert n. induction s as [|a s IH]; intros n Hn; simpl in *; [lia|].
  destruct n as [|n]; [now exists a|]. apply IH. lia.
Qed.

Lemma string_of_list_byte_length (bs : list byte) :
  String.length (string_of_list_byte bs) = length bs.
Proof. induction bs as [|b bs IH]; simpl; [reflexivity|]. now f_equal. Qed.

Lemma string_of_list_byte_get (bs : list byte) (i : nat) :
  String.get i (string_of_list_byte bs) = ascii_of_byte <$> bs !! i.
Proof.
  revert i. induction bs as [|b bs IH]; intros [|i]; simpl; try reflexivity. apply IH.
Qed.


Lemma pick_get (A : string) (m : Z) (b : byte) :
  (0 < m <= Z.of_nat (String.length A))%Z ->
  String.get (Z.to_nat (byte_value b mod m)) A = Some (ascii_of_byte (pick A m b)).
Proof.
  intros Hm. unfold pick.
  destruct (string_get_lt A (Z.to_nat (byte_value b mod m))) as [c Hc].
  { pose proof (Z.mod_pos_bound (byte_value b) m). lia. }
  rewrite Hc. now rewrite ascii_of_byte_of_ascii.
Qed.

Lemma byte_of_int_small (l : Z) : (0 <= l < 256)%Z -> byte_of_int l = l.
Proof. intros H. unfold byte_of_int. now apply Z.mod_small. Qed.

Lemma byte_of_int_le (l : Z) : (0 <= l)%Z -> (0 <= byte_of_int l <= l)%Z.
Proof.
  intros H. unfold byte_of_int. pose proof (Z.mod_pos_bound l 256).
  pose proof (Z.mod_le l 256). lia.
Qed.

(** ** The validator *)

Section Validator.
Context {env : Env}.
Implicit Types (st : State env) (g : secretGenerator).

Lemma assert_string_fails (v : option value) :
  (forall s, v <> Some (VString s)) -> assert_string v = ("", false).
Proof. intros H. destruct v as [[]|]; try reflexivity. now destruct (H s). Qed.

Lemma assert_int_fails (v : option value) :
  (forall n, v <> Some (VInt n)) -> assert_int v = (0%Z, false).
Proof. intros H. destruct v as [[]|]; try reflexivity. now destruct (H n). Qed.

Lemma validatedName_missing event :
  (forall s, ResourceProperties event !! "Name" <> Some (VString s)) ->
  validatedName event = "Unknown".
Proof. intros H. unfold validatedName. now rewrite (assert_string_fails _ H). Qed.

Lemma validatedName_present event s :
  ResourceProperties event !! "Name" = Some (VString s) -> validatedName event = s.
Proof. intros H. unfold validatedName. now rewrite H. Qed.

(** C5, as amended: when [Name] is absent or not a string, whatever the
    resource kind, the validator returns a context (it has no error result)
    whose name is ["Unknown"] and whose recorded fault reads exactly
    ["Missing required property 'Name'"], with a capital M. *)
Theorem validateEvent_missing_Name st (sg : loc) g event :
  heap st !! sg = Some g ->
  (forall s, ResourceProperties event !! "Name" <> Some (VString s)) ->
  exists (trg : loc) st' g' e,
    validateEvent env sg event st = Returns trg st' /\
    heap st' !! trg = Some g' /\
    Name g' = "Unknown" /\
    validationError g' = Some e /\
    Error e = "Missing required property 'Name'".
Proof.
  intros Hsg Hname. rewrite (validateEvent_run _ _ _ _ Hsg).
  eexists _, _, _, _. split; [reflexivity|]. cbn [heap].
  rewrite lookup_insert_eq. split; [reflexivity|].
  unfold validated. cbn [Name validationError].
  rewrite (validatedName_missing _ Hname), (assert_string_fails _ Hname).
  repeat split.
Qed.

(** C7, as amended: an absent or non-string [Alphabet] is replaced by the
    built-in alphabet, which has 81 characters (10 digits, 26 uppercase,
    26 lowercase, 19 punctuation marks); an absent or non-int [Length] is
    replaced by 30. *)
Theorem validateEvent_defaults st (sg : loc) g event :
  heap st !! sg = Some g ->
  exists (trg : loc) st' g',
    validateEvent env sg event st = Returns trg st' /\
    heap st' !! trg = Some g' /\
    ((forall s, ResourceProperties event !! "Alphabet" <> Some (VString s)) ->
     alphabet g' = digits +:+ uppercase +:+ lowercase +:+ punctuation /\
     String.length (alphabet g') = 81 /\
     String.length digits = 10 /\ String.length uppercase = 26 /\
     String.length lowercase = 26 /\ String.length punctuation = 19) /\
    ((forall n, ResourceProperties event !! "Length" <> Some (VInt n)) ->
     passwordLength g' = 30%Z).
Proof.
  intros Hsg. rewrite (validateEvent_run _ _ _ _ Hsg).
  eexists _, _, _. split; [reflexivity|]. cbn [heap].
  rewrite lookup_insert_eq. split; [reflexivity|].
  unfold validated. cbn [alphabet passwordLength]. split.
  - intros H. rewrite (assert_string_fails _ H). repeat split.
  - intros H. now rewrite (assert_int_fails _ H).
Qed.

End Validator.

(** ** Fault-bearing contexts *)

Section StickyFault.
Context {env : Env}.
Implicit Types (st : State env) (g : secretGenerator).

Lemma handleRSAKey_fault st (sg : loc) g e :
  heap st !! sg = Some g -> validationError g = Some e ->
  handleRSAKey env sg st = Returns (None, Some e) st.
Proof. intros Hsg He. unfold handleRSAKey, bind. now rewrite (load_run _ _ _ Hsg), He. Qed.

Lemma handleKeyPair_fault st (sg : loc) g e :
  heap st !! sg = Some g -> validationError g = Some e ->
  handleKeyPair env sg st = Returns (Some e) st.
Proof. intros Hsg He. unfold handleKeyPair, bind. now rewrite (load_run _ _ _ Hsg), He. Qed.

Lemma handlePassword_fault st (sg : loc) g e :
  heap st !! sg = Some g -> validationError g = Some e ->
  handlePassword env sg st = Returns (None, Some e) st.
Proof. intros Hsg He. unfold handlePassword, bind. now rewrite (load_run _ _ _ Hsg), He. Qed.

(** C4: on a context whose fault is set, each generator returns that fault
    and leaves the whole state as it was: the heap, the world and the log of
    external calls, so that no collaborator was called and no key or random
    byte was drawn. *)
Theorem generators_return_fault st (sg : loc) g e :
  heap st !! sg = Some g ->
  validationError g = Some e ->
  handleRSAKey env sg st = Returns (None, Some e) st /\
  handleKeyPair env sg st = Returns (Some e) st /\
  handlePassword env sg st = Returns (None, Some e) st.
Proof.
  intros Hsg He. split; [|split].
  - now apply (handleRSAKey_fault st sg g).
  - now apply (handleKeyPair_fault st sg g).
  - now apply (handlePassword_fault st sg g).
Qed.

End StickyFault.

(** ** The password generator *)

Section PasswordGenerator.
Context {env : Env}.
Implicit Types (st : State env) (g : secretGenerator) (buff : list byte).

(** The loop touches neither the heap, the world nor the log, whether it
    ends or panics. *)
Lemma password_loop_final (sg : loc) l remaining i buff st :
  final (password_loop env sg l remaining i buff st) = st.
Proof.
  revert i buff. induction remaining as [|n IH]; intros i buff; simpl; [reflexivity|].
  destruct (buff !! i) as [b|]; [|reflexivity].
  unfold bind, load. destruct (heap st !! sg) as [g|]; [|reflexivity].
  unfold byte_rem. destruct (decide (byte_of_int l = 0%Z)); [reflexivity|].
  unfold ret, string_index. destruct (decide _); [reflexivity|].
  destruct (String.get _ _); [apply IH | reflexivity].
Qed.

Lemma password_loop_run (sg : loc) g l remaining i buff st :
  heap st !! sg = Some g ->
  (0 < byte_of_int l <= Z.of_nat (String.length (alphabet g)))%Z ->
  i + remaining = length buff ->
  password_loop env sg l remaining i buff st =
    Returns (take i buff ++ (pick (alphabet g) (byte_of_int l) <$> drop i buff)) st.
Proof.
  intros Hsg Hm. revert i buff.
  induction remaining as [|n IH]; intros i buff Hlen; simpl.
  - rewrite take_ge, drop_ge by lia. now rewrite app_nil_r.
  - destruct (lookup_lt_is_Some_2 buff i) as [b Hb]; [lia|]. rewrite Hb.
    unfold bind. rewrite (load_run _ _ _ Hsg).
    unfold byte_rem. destruct (decide (byte_of_int l = 0%Z)) as [E|_]; [lia|].
    unfold ret, string_index.
    fold (byte_value b).
    pose proof (Z.mod_pos_bound (byte_value b) (byte_of_int l)) as Hk.
    destruct (decide _) as [E|_]; [lia|].
    rewrite (pick_get _ _ b Hm), byte_of_ascii_of_byte.
    unfold ret. rewrite IH by (rewrite length_insert; lia).
    rewrite (take_S_r (<[i:=_]> buff) i (pick (alphabet g) (byte_of_int l) b))
      by (apply list_lookup_insert_eq; lia).
    rewrite take_insert_ge by lia. rewrite drop_insert_lt by lia.
    rewrite (drop_S buff b i Hb). rewrite fmap_cons.
    now rewrite <- app_assoc.
Qed.

Lemma password_loop_div0 (sg : loc) g l remaining i buff st :
  heap st !! sg = Some g ->
  byte_of_int l = 0%Z ->
  i < length buff ->
  password_loop env sg l (S remaining) i buff st = Panics integer_divide_by_zero st.
Proof.
  intros Hsg Hm Hi. simpl.
  destruct (lookup_lt_is_Some_2 buff i Hi) as [b Hb]. rewrite Hb.
  unfold bind. rewrite (load_run _ _ _ Hsg).
  unfold byte_rem. now destruct (decide (byte_of_int l = 0%Z)).
Qed.

Lemma make_bytes_run (n : Z) st :
  (0 <= n <= maxAlloc)%Z ->
  make_bytes env n st = Returns (replicate (Z.to_nat n) x00) st.
Proof. intros H. unfold make_bytes. destruct (decide _); [lia | reflexivity]. Qed.

(** One full run of a fault-free context whose loop cannot panic. *)
Lemma handlePassword_run st (sg : loc) g src w :
  heap st !! sg = Some g ->
  validationError g = None ->
  (0 <= passwordLength g <= maxAlloc)%Z ->
  (byte_of_int (Z.of_nat (String.length (alphabet g))) <> 0)%Z ->
  rand_Read env (Z.to_nat (passwordLength g)) (world st) = (src, None, w) ->
  handlePassword env sg st =
    let password := password_of g src in
    let input := password_input g password in
    let '(err, w') := ssm_PutParameter env (SSMClient g) input w in
    Returns (Some (mkResponseSecret None None None (Some password)), err)
      (mkState (heap st) w'
         (call_PutParameter (SSMClient g) input err
            :: call_rand_Read (Z.to_nat (passwordLength g)) None :: calls st)).
Proof.
  intros Hsg Hfault HL Hm Hrand.
  unfold handlePassword, bind at 1. rewrite (load_run _ _ _ Hsg), Hfault.
  unfold bind at 1. rewrite (make_bytes_run _ _ HL).
  unfold bind at 1, external. rewrite length_replicate, Hrand.
  unfold bind at 1, load at 1. cbn [heap]. rewrite Hsg.
  unfold bind at 1.
  rewrite (password_loop_run sg g) with (i := 0).
  - rewrite take_0, drop_0, app_nil_l.
    unfold bind at 1, load at 1. cbn [heap]. rewrite Hsg.
    unfold bind at 1, createSSMParameter, bind at 1, load at 1. cbn [heap].
    rewrite Hsg, Hfault. unfold external. cbn [world heap calls].
    unfold password_of, password_input. cbn zeta.
    now destruct (ssm_PutParameter env _ _ w).
  - exact Hsg.
  - pose proof (byte_of_int_le (Z.of_nat (String.length (alphabet g)))). lia.
  - rewrite !length_fmap, length_seq. lia.
Qed.

(** A fault-free context whose divisor [byte(len(alphabet))] is zero panics
    in the first round of the loop, after the random bytes were drawn. *)
Lemma handlePassword_panics st (sg : loc) g src w :
  heap st !! sg = Some g ->
  validationError g = None ->
  (1 <= passwordLength g <= maxAlloc)%Z ->
  (byte_of_int (Z.of_nat (String.length (alphabet g))) = 0)%Z ->
  rand_Read env (Z.to_nat (passwordLength g)) (world st) = (src, None, w) ->
  handlePassword env sg st =
    Panics integer_divide_by_zero
      (mkState (heap st) w
         (call_rand_Read (Z.to_nat (passwordLength g)) None :: calls st)).
Proof.
  intros Hsg Hfault HL Hm Hrand.
  unfold handlePassword, bind at 1. rewrite (load_run _ _ _ Hsg), Hfault.
  unfold bind at 1. rewrite make_bytes_run by lia.
  unfold bind at 1, external. rewrite length_replicate, Hrand.
  unfold bind at 1, load at 1. cbn [heap]. rewrite Hsg.
  unfold bind at 1. rewrite length_fmap, length_seq.
  destruct (Z.to_nat (passwordLength g)) as [|n] eqn:En; [lia|].
  rewrite (password_loop_div0 sg g); try assumption; try reflexivity.
  rewrite length_fmap, length_seq. lia.
Qed.

(** C6, as amended: for a fault-free context with password length [L],
    [0 <= L <= maxAlloc], and an alphabet [A] whose length is not a
    multiple of 256, once the entropy source has delivered its [L] bytes
    the generator returns a password of exactly [L] bytes, each of them a
    member of [A]; when [A] has fewer than 256 bytes, the [i]-th is
    [A[b_i mod len(A)]] for the [i]-th random byte [b_i]. *)
Theorem handlePassword_password st (sg : loc) g src w :
  heap st !! sg = Some g ->
  validationError g = None ->
  (0 <= passwordLength g <= maxAlloc)%Z ->
  (Z.of_nat (String.length (alphabet g)) mod 256 <> 0)%Z ->
  rand_Read env (Z.to_nat (passwordLength g)) (world st) = (src, None, w) ->
  exists password err st',
    handlePassword env sg st =
      Returns (Some (mkResponseSecret None None None (Some password)), err) st' /\
    String.length password = Z.to_nat (passwordLength g) /\
    (forall i c, String.get i password = Some c ->
       exists j, String.get j (alphabet g) = Some c) /\
    (String.length (alphabet g) < 256 ->
     forall i, i < Z.to_nat (passwordLength g) ->
       exists c,
         String.get i password = Some c /\
         String.get (Z.to_nat (byte_value (src i)
                                 mod Z.of_nat (String.length (alphabet g))))
                    (alphabet g) = Some c).
Proof.
  intros Hsg Hfault HL HA Hrand.
  set (m := byte_of_int (Z.of_nat (String.length (alphabet g)))).
  assert (Hm : (0 < m <= Z.of_nat (String.length (alphabet g)))%Z).
  { pose proof (byte_of_int_le (Z.of_nat (String.length (alphabet g)))).
    unfold m, byte_of_int in *. lia. }
  rewrite (handlePassword_run st sg g src w) by assumption.
  cbn zeta. destruct (ssm_PutParameter env _ _ w) as [err w'].
  assert (Hpick : forall i, i < Z.to_nat (passwordLength g) ->
            exists c,
              String.get i (password_of g src) = Some c /\
              String.get (Z.to_nat (byte_value (src i) mod m)) (alphabet g) = Some c).
  { intros i Hi. unfold password_of.
    rewrite string_of_list_byte_get, !list_lookup_fmap, lookup_seq_lt by exact Hi.
    cbn [fmap option_fmap option_map Nat.add]. fold m.
    eexists. split; [reflexivity|]. now apply pick_get. }
  eexists _, _, _. split; [reflexivity|]. split; [|split].
  - unfold password_of.
    now rewrite string_of_list_byte_length, !length_fmap, length_seq.
  - intros i c Hc.
    assert (Hi : i < Z.to_nat (passwordLength g)).
    { destruct (Nat.lt_ge_cases i (Z.to_nat (passwordLength g))) as [|Hge]; [assumption|].
      unfold password_of in Hc.
      rewrite string_of_list_byte_get, !list_lookup_fmap, lookup_seq_ge in Hc by exact Hge.
      discriminate. }
    destruct (Hpick i Hi) as (c' & H1 & H2). rewrite H1 in Hc.
    injection Hc as <-. eauto.
  - intros Hsmall i Hi.
    assert (Em : m = Z.of_nat (String.length (alphabet g)))
      by (apply byte_of_int_small; lia).
    rewrite <- Em. now apply Hpick.
Qed.

(** C10, as amended: take a fault-free context whose password length [L]
    is within [0 <= L <= maxAlloc] and for which the entropy source
    delivers.  If the alphabet's length is a multiple of 256 (the empty
    alphabet included) and [L >= 1], the generator panics with a division
    by zero, returning neither result nor error; with [L = 0] the loop body
    never runs and the generator returns the empty password; and if the
    alphabet's length is not a multiple of 256 the generator returns. *)
Theorem handlePassword_divide_by_zero st (sg : loc) g src w :
  heap st !! sg = Some g ->
  validationError g = None ->
  (0 <= passwordLength g <= maxAlloc)%Z ->
  rand_Read env (Z.to_nat (passwordLength g)) (world st) = (src, None, w) ->
  let m := (Z.of_nat (String.length (alphabet g)) mod 256)%Z in
  (m = 0%Z -> (1 <= passwordLength g)%Z ->
   exists st', handlePassword env sg st = Panics integer_divide_by_zero st') /\
  (m = 0%Z -> passwordLength g = 0%Z ->
   exists err st',
     handlePassword env sg st =
       Returns (Some (mkResponseSecret None None None (Some "")), err) st') /\
  (m <> 0%Z ->
   exists r st', handlePassword env sg st = Returns r st').
Proof.
  intros Hsg Hfault HL Hrand m. split; [|split].
  - intros Hm H1. eexists. apply (handlePassword_panics st sg g src w); try assumption. lia.
  - intros Hm H0.
    unfold handlePassword, bind at 1. rewrite (load_run _ _ _ Hsg), Hfault.
    unfold bind at 1. rewrite make_bytes_run by lia.
    unfold bind at 1, external. rewrite length_replicate, Hrand.
    unfold bind at 1, load at 1. cbn [heap]. rewrite Hsg.
    rewrite H0. change (Z.to_nat 0) with 0.
    unfold bind at 1. cbn [seq fmap list_fmap length password_loop]. unfold ret at 1.
    unfold bind at 1, load at 1. cbn [heap]. rewrite Hsg.
    unfold bind at 1, createSSMParameter, bind at 1, load at 1. cbn [heap].
    rewrite Hsg, Hfault. unfold external. cbn [world].
    destruct (ssm_PutParameter env _ _ w). eexists _, _. reflexivity.
  - intros Hm. rewrite (handlePassword_run st sg g src w) by assumption.
    cbn zeta. destruct (ssm_PutParameter env _ _ w). eexists _, _. reflexivity.
Qed.

End PasswordGenerator.

(** ** What a computation may write *)

Section Frames.
Context {env : Env}.
Implicit Types (st : State env) (g : secretGenerator).

Lemma keeps_ret {A} (a : A) : keeps_heap (ret (env:=env) a).
Proof. now intros st. Qed.

Lemma keeps_throw {A} p : keeps_heap (throw (env:=env) (A:=A) p).
Proof. now intros st. Qed.

Lemma keeps_load (l : loc) : keeps_heap (load env l).
Proof. intros st. unfold load. now destruct (heap st !! l). Qed.

Lemma keeps_external {A} (f : World env -> A * World env) entry :
  keeps_heap (external env f entry).
Proof. intros st. unfold external. now destruct (f (world st)). Qed.

Lemma keeps_bind {A B} (c : M env A) (k : A -> M env B) :
  keeps_heap c -> (forall a, keeps_heap (k a)) -> keeps_heap (bind c k).
Proof.
  intros Hc Hk st. unfold bind. specialize (Hc st).
  destruct (c st) as [a st'|p st']; cbn in *; [|exact Hc].
  now rewrite Hk.
Qed.

Lemma keeps_make_bytes n : keeps_heap (make_bytes env n).
Proof. intros st. unfold make_bytes. now destruct (decide _). Qed.

Lemma keeps_password_loop (sg : loc) l remaining i buff :
  keeps_heap (password_loop env sg l remaining i buff).
Proof. intros st. now rewrite password_loop_final. Qed.

Ltac keeps :=
  repeat first
    [ apply keeps_ret | apply keeps_throw | apply keeps_load
    | apply keeps_external | apply keeps_make_bytes | apply keeps_password_loop
    | apply keeps_bind; [|intros ?]
    | match goal with
      | |- keeps_heap (match ?x with _ => _ end) => destruct x
      end ].

Lemma keeps_createSSMParameter (sg : loc) key value description override :
  keeps_heap (createSSMParameter env sg key value description override).
Proof. unfold createSSMParameter. keeps. Qed.

Lemma keeps_handleRSAKey (sg : loc) : keeps_heap (handleRSAKey env sg).
Proof. unfold handleRSAKey. keeps; apply keeps_createSSMParameter. Qed.

Lemma keeps_handlePassword (sg : loc) : keeps_heap (handlePassword env sg).
Proof. unfold handlePassword. keeps; apply keeps_createSSMParameter. Qed.

Lemma keeps_writes_only {A} (l : loc) (c : M env A) : keeps_heap c -> writes_only l c.
Proof. intros H st l' _. now rewrite H. Qed.

Lemma writes_only_modify (l : loc) f : writes_only l (modify env l f).
Proof.
  intros st l' Hne. unfold modify. destruct (heap st !! l); [|reflexivity].
  cbn. now rewrite lookup_insert_ne.
Qed.

Lemma writes_only_bind {A B} (l : loc) (c : M env A) (k : A -> M env B) :
  writes_only l c -> (forall a, writes_only l (k a)) -> writes_only l (bind c k).
Proof.
  intros Hc Hk st l' Hne. unfold bind. specialize (Hc st l' Hne).
  destruct (c st) as [a st'|p st']; cbn in *; [|exact Hc].
  now rewrite Hk.
Qed.

(** What [handleKeyPair] leaves in the heap. *)
Lemma handleKeyPair_heap st (sg : loc) g :
  heap st !! sg = Some g ->
  heap (final (handleKeyPair env sg st)) =
    match validationError g, publicKey g with
    | None, None =>
        <[sg := set_validationError
                  (Some (errors_New "Missing required property 'PublicKey'")) g]> (heap st)
    | _, _ => heap st
    end.
Proof.
  intros Hsg. unfold handleKeyPair, bind at 1. rewrite (load_run _ _ _ Hsg).
  destruct (validationError g); [reflexivity|].
  destruct (publicKey g); [apply keeps_external|].
  unfold bind at 1. rewrite (modify_run _ _ _ _ Hsg).
  unfold bind, load. cbn [heap]. now rewrite lookup_insert_eq.
Qed.

Lemma writes_only_handleKeyPair (sg : loc) : writes_only sg (handleKeyPair env sg).
Proof.
  intros st l' Hne. destruct (heap st !! sg) as [g|] eqn:Hsg.
  - rewrite (handleKeyPair_heap _ _ _ Hsg).
    destruct (validationError g), (publicKey g); try reflexivity.
    now rewrite lookup_insert_ne.
  - unfold handleKeyPair, bind, load. now rewrite Hsg.
Qed.


End Frames.

(** ** A failed parameter-store write *)

Section StoreFailure.
Context {env : Env}.
Implicit Types (st : State env) (g : secretGenerator) (new : list call).

Lemma string_of_list_byte_nonempty (bs : list byte) :
  bs <> [] -> string_of_list_byte bs <> "".
Proof. destruct bs; [congruence | discriminate]. Qed.

Lemma log0 (cs new : list call) : cs = new ++ cs -> new = [].
Proof. intros H. symmetry. now apply (app_inv_tail cs [] new). Qed.

Lemma log1 (x : call) (cs new : list call) : x :: cs = new ++ cs -> new = [x].
Proof. intros H. symmetry. now apply (app_inv_tail cs [x] new). Qed.

Lemma log2 (x y : call) (cs new : list call) :
  x :: y :: cs = new ++ cs -> new = [x; y].
Proof. intros H. symmetry. now apply (app_inv_tail cs [x; y] new). Qed.

Ltac no_store_call :=
  let H := fresh in let Hin := fresh in
  intros <- H Hin; cbn in H;
  first [apply log0 in H | apply log1 in H | apply log2 in H]; subst;
  cbn in Hin; intuition discriminate.

Lemma handleRSAKey_store_failure st (sg : loc) c input e new out :
  encoders_nonempty env ->
  handleRSAKey env sg st = out ->
  calls (final out) = new ++ calls st ->
  In (call_PutParameter c input (Some e)) new ->
  exists priv pub st',
    out = Returns (Some (mkResponseSecret (Some 2048%Z) (Some priv) (Some pub) None),
                   Some e) st' /\
    priv <> "" /\ pub <> "" /\ pp_Value input = priv.
Proof.
  intros [Hpem Hssh]. unfold handleRSAKey, bind at 1, load at 1.
  destruct (heap st !! sg) as [g|] eqn:Hsg; [|no_store_call].
  destruct (validationError g) eqn:Hfault; [no_store_call|].
  unfold bind at 1, external at 1.
  destruct (rsa_GenerateKey env 2048 (world st)) as [[privateKey|e1] w1];
    [|no_store_call].
  destruct (rsa_Validate env privateKey); [no_store_call|].
  destruct (ssh_NewPublicKey env privateKey) as [publicKeyRSA|e2]; [|no_store_call].
  unfold bind at 1, load at 1. cbn [heap]. rewrite Hsg.
  unfold bind at 1, createSSMParameter, bind at 1, load at 1. cbn [heap].
  rewrite Hsg, Hfault. unfold external. cbn [world heap calls].
  destruct (ssm_PutParameter env _ _ w1) as [err w2].
  intros <- Hlog Hin. cbn in Hlog. apply log2 in Hlog. subst new.
  destruct Hin as [Hin | [Hin | []]]; [|discriminate].
  injection Hin as <- <- ->.
  eexists _, _, _. split; [reflexivity|].
  cbn [pp_Value]. repeat split; apply string_of_list_byte_nonempty; auto.
Qed.

Lemma handlePassword_store_failure st (sg : loc) c input e new out :
  handlePassword env sg st = out ->
  calls (final out) = new ++ calls st ->
  In (call_PutParameter c input (Some e)) new ->
  exists password st',
    out = Returns (Some (mkResponseSecret None None None (Some password)), Some e) st' /\
    pp_Value input = password.
Proof.
  unfold handlePassword, bind at 1, load at 1.
  destruct (heap st !! sg) as [g|] eqn:Hsg; [|no_store_call].
  destruct (validationError g) eqn:Hfault; [no_store_call|].
  unfold bind at 1, make_bytes.
  destruct (decide _); [no_store_call|]. unfold ret at 1.
  unfold bind at 1, external at 1.
  destruct (rand_Read env _ (world st)) as [[src [e1|]] w1]; [no_store_call|].
  unfold bind at 1, load at 1. cbn [heap]. rewrite Hsg.
  unfold bind at 1.
  match goal with |- context [password_loop env sg ?l ?n ?i ?b ?s] =>
    pose proof (password_loop_final sg l n i b s) as Hloop;
    destruct (password_loop env sg l n i b s) as [buff st1|p st1]
  end; cbn [final] in Hloop; subst st1; [|no_store_call].
  unfold bind at 1, load at 1. cbn [heap]. rewrite Hsg.
  unfold bind at 1, createSSMParameter, bind at 1, load at 1. cbn [heap].
  rewrite Hsg, Hfault. unfold external. cbn [world heap calls].
  destruct (ssm_PutParameter env _ _ w1) as [err w2].
  intros <- Hlog Hin. cbn in Hlog. apply log2 in Hlog. subst new.
  destruct Hin as [Hin | [Hin | []]]; [|discriminate].
  injection Hin as <- <- ->.
  eexists _, _. split; reflexivity.
Qed.

(** C3: whenever a run of the RSA or of the password generator wrote to
    the parameter store and the store answered with an error, the generator
    returns that error together with a populated response: for RSA the key
    length 2048 and the private and public keys, both non-empty (the
    encoders producing no empty output), the private key being the value
    sent to the store; for the password generator the password it sent. *)
Theorem store_failure_keeps_artifact st (sg : loc) c input e new :
  encoders_nonempty env ->
  (calls (final (handleRSAKey env sg st)) = new ++ calls st ->
   In (call_PutParameter c input (Some e)) new ->
   exists priv pub st',
     handleRSAKey env sg st =
       Returns (Some (mkResponseSecret (Some 2048%Z) (Some priv) (Some pub) None),
                Some e) st' /\
     priv <> "" /\ pub <> "" /\ pp_Value input = priv) /\
  (calls (final (handlePassword env sg st)) = new ++ calls st ->
   In (call_PutParameter c input (Some e)) new ->
   exists password st',
     handlePassword env sg st =
       Returns (Some (mkResponseSecret None None None (Some password)), Some e) st' /\
     pp_Value input = password).
Proof.
  intros Henc. split; intros Hlog Hin.
  - exact (handleRSAKey_store_failure st sg c input e new _ Henc eq_refl Hlog Hin).
  - exact (handlePassword_store_failure st sg c input e new _ eq_refl Hlog Hin).
Qed.

End StoreFailure.

(** ** Runs that differ only in the heap *)

Section Simulation.
Context {env : Env}.
Implicit Types (st : State env) (g : secretGenerator).

Lemma msim_ret {A} l1 l2 (a : A) : msim (env:=env) l1 l2 (ret a) (ret a).
Proof. intros s1 s2 H. now split. Qed.

Lemma msim_throw {A} l1 l2 p : msim (env:=env) (A:=A) l1 l2 (throw p) (throw p).
Proof. intros s1 s2 H. now split. Qed.

Lemma msim_bind {A B} l1 l2 (c1 c2 : M env A) (k1 k2 : A -> M env B) :
  msim l1 l2 c1 c2 -> (forall a, msim l1 l2 (k1 a) (k2 a)) ->
  msim l1 l2 (bind c1 k1) (bind c2 k2).
Proof.
  intros Hc Hk s1 s2 H. unfold bind. specialize (Hc s1 s2 H).
  destruct (c1 s1), (c2 s2); cbn in Hc; try contradiction.
  - destruct Hc as [<- Hs]. now apply Hk.
  - exact Hc.
Qed.

Lemma msim_load l1 l2 : msim l1 l2 (load env l1) (load env l2).
Proof.
  intros s1 s2 H. unfold load. destruct H as (Hh & Hw & Hc). rewrite Hh.
  destruct (heap s2 !! l2) eqn:E; cbn; rewrite ?E; repeat split; congruence.
Qed.

Lemma msim_modify l1 l2 f : msim l1 l2 (modify env l1 f) (modify env l2 f).
Proof.
  intros s1 s2 H. unfold modify. destruct H as (Hh & Hw & Hc). rewrite Hh.
  destruct (heap s2 !! l2) eqn:E; cbn.
  - split; [reflexivity|]. unfold sim. cbn. now rewrite !lookup_insert_eq.
  - repeat split; congruence.
Qed.

Lemma msim_external {A} l1 l2 (f : World env -> A * World env) entry :
  msim l1 l2 (external env f entry) (external env f entry).
Proof.
  intros s1 s2 (Hh & Hw & Hc). unfold external. rewrite Hw, Hc.
  destruct (f (world s2)). cbn. repeat split. exact Hh.
Qed.

Lemma msim_make_bytes l1 l2 n : msim l1 l2 (make_bytes env n) (make_bytes env n).
Proof. unfold make_bytes. destruct (decide _); [apply msim_throw | apply msim_ret]. Qed.

Ltac msim_step :=
  first
    [ apply msim_ret | apply msim_throw | apply msim_load | apply msim_modify
    | apply msim_external | apply msim_make_bytes
    | apply msim_bind; [|intros ?]
    | match goal with
      | |- msim _ _ (match ?x with _ => _ end) _ => destruct x
      end ].

Lemma msim_password_loop l1 l2 l remaining i buff :
  msim l1 l2 (password_loop env l1 l remaining i buff)
             (password_loop env l2 l remaining i buff).
Proof.
  revert i buff. induction remaining as [|n IH]; intros i buff; cbn [password_loop].
  - apply msim_ret.
  - destruct (buff !! i); [|apply msim_throw].
    apply msim_bind; [apply msim_load|intros g].
    apply msim_bind; [unfold byte_rem; repeat msim_step|intros k].
    apply msim_bind; [unfold string_index; repeat msim_step|intros c].
    apply IH.
Qed.

Lemma msim_createSSMParameter l1 l2 key value description override :
  msim l1 l2 (createSSMParameter env l1 key value description override)
             (createSSMParameter env l2 key value description override).
Proof. unfold createSSMParameter. repeat msim_step. Qed.

Lemma msim_handleRSAKey l1 l2 : msim l1 l2 (handleRSAKey env l1) (handleRSAKey env l2).
Proof.
  unfold handleRSAKey. repeat first [msim_step | apply msim_createSSMParameter].
Qed.

Lemma msim_handleKeyPair l1 l2 : msim l1 l2 (handleKeyPair env l1) (handleKeyPair env l2).
Proof. unfold handleKeyPair. repeat msim_step. Qed.

Lemma msim_handlePassword l1 l2 :
  msim l1 l2 (handlePassword env l1) (handlePassword env l2).
Proof.
  unfold handlePassword.
  repeat first [msim_step | apply msim_createSSMParameter | apply msim_password_loop].
Qed.

Lemma osim_observe {A} l1 l2 (o1 o2 : outcome env A) :
  osim l1 l2 o1 o2 -> observe o1 = observe o2.
Proof.
  destruct o1, o2; cbn; try contradiction; intros (-> & _ & -> & ->); reflexivity.
Qed.

End Simulation.

(** ** The dispatcher *)

Section Dispatcher.
Context {env : Env}.
Implicit Types (st : State env) (g : secretGenerator).

Lemma Process_unfold (sg : loc) event :
  Process env sg event = bind (validateEvent env sg event) (fun trg => dispatch env trg event).
Proof. reflexivity. Qed.

Lemma Process_run st (sg : loc) g event :
  heap st !! sg = Some g ->
  Process env sg event st =
    dispatch env (fresh (dom (heap st))) event (validated_state st g event).
Proof.
  intros Hsg. rewrite Process_unfold. unfold bind.
  now rewrite (validateEvent_run _ _ _ _ Hsg).
Qed.

Lemma validated_state_lookup st g event :
  heap (validated_state st g event) !! fresh (dom (heap st))
  = Some (validated (EC2Client g) (SSMClient g) event).
Proof. unfold validated_state. cbn. apply lookup_insert_eq. Qed.

Lemma validated_state_old st g event (l : loc) g0 :
  heap st !! l = Some g0 -> heap (validated_state st g event) !! l = Some g0.
Proof.
  intros H. unfold validated_state. cbn. rewrite lookup_insert_ne; [exact H|].
  intros E. pose proof (is_fresh (dom (heap st))) as Hfresh.
  apply Hfresh. rewrite E. apply elem_of_dom. eauto.
Qed.

Lemma msim_dispatch l1 l2 event : msim l1 l2 (dispatch env l1 event) (dispatch env l2 event).
Proof.
  unfold dispatch. apply msim_bind.
  - repeat destruct (decide _).
    + apply msim_bind; [apply msim_handleRSAKey|intros [response err]].
      apply msim_bind; [apply msim_load|intros g]. apply msim_ret.
    + apply msim_bind; [apply msim_handleKeyPair|intros err].
      apply msim_bind; [apply msim_load|intros g]. apply msim_ret.
    + apply msim_bind; [apply msim_handlePassword|intros [response err]].
      apply msim_bind; [apply msim_load|intros g]. apply msim_ret.
    + apply msim_bind; [apply msim_load|intros g]. apply msim_ret.
  - intros [[response id] err]. apply msim_ret.
Qed.

Lemma writes_only_dispatch (l : loc) event : writes_only l (dispatch env l event).
Proof.
  unfold dispatch. apply writes_only_bind.
  - repeat destruct (decide _).
    + apply keeps_writes_only. apply keeps_bind; [apply keeps_handleRSAKey|intros []].
      apply keeps_bind; [apply keeps_load|intros ?]. apply keeps_ret.
    + apply writes_only_bind; [apply writes_only_handleKeyPair|intros ?].
      apply keeps_writes_only.
      apply keeps_bind; [apply keeps_load|intros ?]. apply keeps_ret.
    + apply keeps_writes_only. apply keeps_bind; [apply keeps_handlePassword|intros []].
      apply keeps_bind; [apply keeps_load|intros ?]. apply keeps_ret.
    + apply keeps_writes_only.
      apply keeps_bind; [apply keeps_load|intros ?]. apply keeps_ret.
  - intros [[response id] err]. apply keeps_writes_only, keeps_ret.
Qed.

(** [Process] leaves every struct that was in the heap as it was. *)
Lemma Process_frame st (sg : loc) event (l : loc) g0 :
  heap st !! l = Some g0 ->
  heap (final (Process env sg event st)) !! l = Some g0.
Proof.
  intros Hl. destruct (heap st !! sg) as [g|] eqn:Hsg.
  - rewrite (Process_run _ _ _ _ Hsg). rewrite writes_only_dispatch.
    + now apply validated_state_old.
    + intros E. pose proof (is_fresh (dom (heap st))) as Hfresh.
      apply Hfresh. rewrite <- E. apply elem_of_dom. eauto.
  - rewrite Process_unfold. unfold bind, validateEvent, bind, load. now rewrite Hsg.
Qed.

(** The observable part of a run of [Process] is a function of the two
    clients, the event, the world and the log. *)
Lemma Process_observe st1 st2 (sg1 sg2 : loc) g1 g2 event :
  heap st1 !! sg1 = Some g1 ->
  heap st2 !! sg2 = Some g2 ->
  EC2Client g1 = EC2Client g2 ->
  SSMClient g1 = SSMClient g2 ->
  world st1 = world st2 ->
  calls st1 = calls st2 ->
  observe (Process env sg1 event st1) = observe (Process env sg2 event st2).
Proof.
  intros H1 H2 Hec2 Hssm Hw Hc.
  rewrite (Process_run _ _ _ _ H1), (Process_run _ _ _ _ H2).
  apply (osim_observe (fresh (dom (heap st1))) (fresh (dom (heap st2)))).
  apply msim_dispatch. split; [|split]; [|exact Hw|exact Hc].
  rewrite !validated_state_lookup. now rewrite Hec2, Hssm.
Qed.

(** C9: [Process] never mutates the generator it is invoked on, nor any
    other struct already in the heap; what a run returns and does to the
    world depends only on the generator's two clients, the event and the
    world, not on the fields of the generator or on the rest of the heap;
    hence after any earlier invocation on the same generator, an invocation
    behaves as it would on the untouched heap. *)
Theorem Process_invocations_independent :
  (forall st (sg : loc) event (l : loc) g0,
     heap st !! l = Some g0 ->
     heap (final (Process env sg event st)) !! l = Some g0) /\
  (forall st1 st2 (sg1 sg2 : loc) g1 g2 event,
     heap st1 !! sg1 = Some g1 ->
     heap st2 !! sg2 = Some g2 ->
     EC2Client g1 = EC2Client g2 ->
     SSMClient g1 = SSMClient g2 ->
     world st1 = world st2 ->
     calls st1 = calls st2 ->
     observe (Process env sg1 event st1) = observe (Process env sg2 event st2)) /\
  (forall st (sg : loc) g event1 event2,
     heap st !! sg = Some g ->
     let st1 := final (Process env sg event1 st) in
     observe (Process env sg event2 st1)
     = observe (Process env sg event2 (mkState (heap st) (world st1) (calls st1)))).
Proof.
  split; [|split].
  - intros st sg event l g0. apply Process_frame.
  - intros st1 st2 sg1 sg2 g1 g2 event. apply Process_observe.
  - intros st sg g event1 event2 Hsg st1.
    apply (Process_observe st1 _ sg sg g g); try reflexivity.
    + now apply Process_frame.
    + exact Hsg.
Qed.

(** *** Termination of the generators *)

Lemma handleRSAKey_returns st (sg : loc) g :
  heap st !! sg = Some g ->
  exists r st', handleRSAKey env sg st = Returns r st' /\ heap st' = heap st.
Proof.
  intros Hsg.
  assert (exists r st', handleRSAKey env sg st = Returns r st') as (r & st' & Hrun).
  { unfold handleRSAKey, bind at 1. rewrite (load_run _ _ _ Hsg).
    destruct (validationError g) eqn:Hfault; [cbn; eauto|].
    unfold bind at 1, external at 1.
    destruct (rsa_GenerateKey env 2048 (world st)) as [[privateKey|e1] w1]; [|cbn; eauto].
    destruct (rsa_Validate env privateKey); [cbn; eauto|].
    destruct (ssh_NewPublicKey env privateKey) as [publicKeyRSA|e2]; [|cbn; eauto].
    unfold bind at 1, load at 1. cbn [heap]. rewrite Hsg.
    unfold bind at 1, createSSMParameter, bind at 1, load at 1. cbn [heap].
    rewrite Hsg, Hfault. unfold external. cbn [world heap calls].
    destruct (ssm_PutParameter env _ _ w1) as [err w2]. cbn. eauto. }
  exists r, st'. split; [exact Hrun|].
  pose proof (keeps_handleRSAKey sg st) as Hkeep. now rewrite Hrun in Hkeep.
Qed.

Lemma handleKeyPair_returns st (sg : loc) g :
  heap st !! sg = Some g ->
  exists err st' g',
    handleKeyPair env sg st = Returns err st' /\
    heap st' !! sg = Some g' /\ Name g' = Name g /\
    (validationError g = None -> publicKey g = None ->
     err = Some (errors_New "Missing required property 'PublicKey'")).
Proof.
  intros Hsg. unfold handleKeyPair, bind at 1. rewrite (load_run _ _ _ Hsg).
  destruct (validationError g) eqn:Hfault.
  { eexists _, _, g. repeat split; [exact Hsg | discriminate]. }
  destruct (publicKey g) eqn:Hpk.
  { unfold external. destruct (ec2_ImportKeyPair env _ _ (world st)) as [err w1].
    eexists _, _, g. repeat split; [exact Hsg | discriminate]. }
  unfold bind at 1. rewrite (modify_run _ _ _ _ Hsg).
  unfold bind, load. cbn [heap]. rewrite lookup_insert_eq.
  eexists _, _, _. split; [reflexivity|]. cbn [heap].
  rewrite lookup_insert_eq. repeat split.
Qed.

Lemma handlePassword_returns st (sg : loc) g :
  heap st !! sg = Some g ->
  validationError g <> None \/
  ((0 <= passwordLength g <= maxAlloc)%Z /\
   (Z.of_nat (String.length (alphabet g)) mod 256 <> 0)%Z) ->
  exists r st', handlePassword env sg st = Returns r st'.
Proof.
  intros Hsg Hcond. destruct (validationError g) as [e|] eqn:Hfault.
  { rewrite (handlePassword_fault st sg g e Hsg Hfault). eauto. }
  destruct Hcond as [Hcond | [HL Hm]]; [congruence|].
  destruct (rand_Read env (Z.to_nat (passwordLength g)) (world st))
    as [[src [e|]] w] eqn:Hrand.
  - unfold handlePassword, bind at 1. rewrite (load_run _ _ _ Hsg), Hfault.
    unfold bind at 1. rewrite (make_bytes_run _ _ HL).
    unfold bind at 1, external. rewrite length_replicate, Hrand. cbn. eauto.
  - rewrite (handlePassword_run st sg g src w) by assumption.
    cbn zeta. destruct (ssm_PutParameter env _ _ w). eauto.
Qed.

(** *** Identifiers *)

Lemma dispatch_RSAKey st (l : loc) g event :
  ResourceType event = "Custom::RSAKey" ->
  heap st !! l = Some g ->
  exists data err st',
    dispatch env l event st = Returns ("RSAKey:" +:+ Name g, data, err) st'.
Proof.
  intros Hkind Hl. unfold dispatch.
  destruct (decide (ResourceType event = "Custom::RSAKey")); [|contradiction].
  destruct (handleRSAKey_returns st l g Hl) as ([response err] & st' & Hrun & Hheap).
  unfold bind at 1, bind at 1. rewrite Hrun.
  unfold bind at 1, load. rewrite Hheap, Hl. cbn. eauto.
Qed.

Lemma dispatch_KeyPair st (l : loc) g event :
  ResourceType event = "Custom::KeyPair" ->
  heap st !! l = Some g ->
  exists err st',
    dispatch env l event st
    = Returns ("KeyPair:" +:+ Name g, {["Response" := VNil]}, err) st' /\
    (validationError g = None -> publicKey g = None ->
     err = Some (errors_New "Missing required property 'PublicKey'")).
Proof.
  intros Hkind Hl. unfold dispatch.
  destruct (decide (ResourceType event = "Custom::RSAKey")) as [E|_];
    [rewrite Hkind in E; discriminate|].
  destruct (decide (ResourceType event = "Custom::KeyPair")); [|contradiction].
  destruct (handleKeyPair_returns st l g Hl) as (err & st' & g' & Hrun & Hl' & Hname & Herr).
  unfold bind at 1, bind at 1. rewrite Hrun.
  unfold bind at 1, load. rewrite Hl', Hname. cbn. eauto.
Qed.

Lemma dispatch_Password st (l : loc) g event :
  ResourceType event = "Custom::Password" ->
  heap st !! l = Some g ->
  (forall r st', dispatch env l event st = Returns r st' ->
                 r.1.1 = "Password:" +:+ Name g) /\
  (validationError g <> None \/
   ((0 <= passwordLength g <= maxAlloc)%Z /\
    (Z.of_nat (String.length (alphabet g)) mod 256 <> 0)%Z) ->
   exists data err st',
     dispatch env l event st = Returns ("Password:" +:+ Name g, data, err) st').
Proof.
  intros Hkind Hl. unfold dispatch.
  destruct (decide (ResourceType event = "Custom::RSAKey")) as [E|_];
    [rewrite Hkind in E; discriminate|].
  destruct (decide (ResourceType event = "Custom::KeyPair")) as [E|_];
    [rewrite Hkind in E; discriminate|].
  destruct (decide (ResourceType event = "Custom::Password")); [|contradiction].
  pose proof (keeps_handlePassword l st) as Hkeep.
  split.
  - intros r st'. unfold bind at 1, bind at 1.
    destruct (handlePassword env l st) as [[response err] st1|p st1]; [|discriminate].
    cbn [final] in Hkeep. unfold bind at 1, load. rewrite Hkeep, Hl. cbn.
    intros H. injection H as <- _. reflexivity.
  - intros Hcond.
    destruct (handlePassword_returns st l g Hl Hcond) as ([response err] & st1 & Hrun).
    rewrite Hrun in Hkeep. cbn [final] in Hkeep.
    unfold bind at 1, bind at 1. rewrite Hrun.
    unfold bind at 1, load. rewrite Hkeep, Hl. cbn. eauto.
Qed.

Lemma dispatch_unknown st (l : loc) g event :
  ResourceType event <> "Custom::RSAKey" ->
  ResourceType event <> "Custom::KeyPair" ->
  ResourceType event <> "Custom::Password" ->
  heap st !! l = Some g ->
  dispatch env l event st
  = Returns ("Unknown:" +:+ Name g, {["Response" := VNil]},
             Some (errors_New "Unknown ResourceType")) st.
Proof.
  intros H1 H2 H3 Hl. unfold dispatch.
  repeat (destruct (decide _); [contradiction|]).
  unfold bind, load. now rewrite Hl.
Qed.

(** C1, as amended: let [ctx] be the context that the validator builds
    for the event.  For the kinds [Custom::RSAKey] and [Custom::KeyPair],
    [Process] always returns, with the identifier ["RSAKey:<name>"] or
    ["KeyPair:<name>"] for the validated name, also when the generator
    returned an error; a [Custom::KeyPair] request that has a [Name] and no
    [PublicKey] yields the error ["Missing required property 'PublicKey'"]
    (capital M) with its identifier ["KeyPair:<Name>"].  For
    [Custom::Password], every returning run gives ["Password:<name>"], and
    [Process] returns whenever [Name] is missing or the validated length is
    within [0 .. maxAlloc] and the alphabet's length is not a multiple of
    256. *)
Theorem Process_identifier st (sg : loc) g event :
  heap st !! sg = Some g ->
  exists (trg : loc) st1 ctx,
    validateEvent env sg event st = Returns trg st1 /\
    heap st1 !! trg = Some ctx /\
    (ResourceType event = "Custom::RSAKey" ->
     exists data err st',
       Process env sg event st = Returns ("RSAKey:" +:+ Name ctx, data, err) st') /\
    (ResourceType event = "Custom::KeyPair" ->
     exists err st',
       Process env sg event st
       = Returns ("KeyPair:" +:+ Name ctx, {["Response" := VNil]}, err) st' /\
       forall name,
         ResourceProperties event !! "Name" = Some (VString name) ->
         (forall s, ResourceProperties event !! "PublicKey" <> Some (VString s)) ->
         Name ctx = name /\
         err = Some (errors_New "Missing required property 'PublicKey'")) /\
    (ResourceType event = "Custom::Password" ->
     (forall r st', Process env sg event st = Returns r st' ->
                    r.1.1 = "Password:" +:+ Name ctx) /\
     (validationError ctx <> None \/
      ((0 <= passwordLength ctx <= maxAlloc)%Z /\
       (Z.of_nat (String.length (alphabet ctx)) mod 256 <> 0)%Z) ->
      exists data err st',
        Process env sg event st = Returns ("Password:" +:+ Name ctx, data, err) st')).
Proof.
  intros Hsg. rewrite (validateEvent_run _ _ _ _ Hsg), (Process_run _ _ _ _ Hsg).
  pose proof (validated_state_lookup st g event) as Hctx.
  set (ctx := validated (EC2Client g) (SSMClient g) event) in *.
  exists (fresh (dom (heap st))), (validated_state st g event), ctx.
  split; [reflexivity|]. split; [exact Hctx|].
  split; [|split]; intros Hkind.
  - apply (dispatch_RSAKey _ _ ctx event Hkind Hctx).
  - destruct (dispatch_KeyPair _ _ ctx event Hkind Hctx) as (err & st' & Hrun & Herr).
    exists err, st'. split; [exact Hrun|].
    intros name Hname Hpk. split; [now apply validatedName_present|].
    apply Herr; unfold ctx, validated; cbn [validationError publicKey].
    + now rewrite Hname.
    + now rewrite (assert_string_fails _ Hpk).
  - apply (dispatch_Password _ _ ctx event Hkind Hctx).
Qed.

(** C2, as amended: for a resource kind other than [Custom::RSAKey],
    [Custom::KeyPair] and [Custom::Password], [Process] returns the error
    ["Unknown ResourceType"], an empty response and the identifier
    ["Unknown:<name>"]: only the kind is replaced by the sentinel, the name
    is the one the validator settled on, that is the [Name] property when
    it is a string and ["Unknown"] when it is absent or not a string. *)
Theorem Process_unknown_kind st (sg : loc) g event :
  heap st !! sg = Some g ->
  ResourceType event <> "Custom::RSAKey" ->
  ResourceType event <> "Custom::KeyPair" ->
  ResourceType event <> "Custom::Password" ->
  exists (trg : loc) st1 ctx e,
    validateEvent env sg event st = Returns trg st1 /\
    heap st1 !! trg = Some ctx /\
    Process env sg event st
    = Returns ("Unknown:" +:+ Name ctx, {["Response" := VNil]}, Some e) st1 /\
    Error e = "Unknown ResourceType" /\
    (forall name, ResourceProperties event !! "Name" = Some (VString name) ->
                  Name ctx = name) /\
    ((forall s, ResourceProperties event !! "Name" <> Some (VString s)) ->
     Name ctx = "Unknown").
Proof.
  intros Hsg H1 H2 H3.
  rewrite (validateEvent_run _ _ _ _ Hsg), (Process_run _ _ _ _ Hsg).
  pose proof (validated_state_lookup st g event) as Hctx.
  rewrite (dispatch_unknown _ _ _ event H1 H2 H3 Hctx).
  eexists _, _, _, _. split; [reflexivity|]. split; [exact Hctx|].
  split; [reflexivity|]. split; [reflexivity|]. split.
  - intros name. apply validatedName_present.
  - apply validatedName_missing.
Qed.

End Dispatcher.

(** ** Runs against the test collaborators *)

Lemma st0_generator : heap st0 !! 1%positive = Some generator0.
Proof. reflexivity. Qed.

Lemma context_state_lookup g : heap (context_state g) !! 1%positive = Some g.
Proof. unfold context_state. cbn. apply lookup_singleton_eq. Qed.

(** *** Inputs on which the documented behaviour does not hold *)

(** C1: the [Custom::KeyPair] request with name ["K"] and no public key
    does not yield an error spelled ["missing required property
    'PublicKey'"]. *)
Lemma Process_KeyPair_message_not_lowercase :
  ~ exists data e st',
      Process mock 1%positive event_KeyPair_K st0 = Returns ("KeyPair:K", data, Some e) st' /\
      Error e = "missing required property 'PublicKey'".
Proof.
  intros (data & e & st' & Hrun & He).
  rewrite (Process_run _ _ _ _ st0_generator) in Hrun.
  destruct (dispatch_KeyPair (validated_state st0 generator0 event_KeyPair_K) _ _
              event_KeyPair_K eq_refl
              (validated_state_lookup st0 generator0 event_KeyPair_K))
    as (err & st1 & Hrun' & Herr).
  rewrite Hrun' in Hrun. injection Hrun as _ Herr' _.
  rewrite (Herr eq_refl eq_refl) in Herr'. injection Herr' as <-.
  discriminate He.
Qed.

(** C2: an unknown kind with name ["foo"] does not get the identifier
    ["Unknown:Unknown"]. *)
Lemma Process_unknown_kind_keeps_name :
  ~ exists data err st',
      Process mock 1%positive event_Bogus_foo st0 = Returns ("Unknown:Unknown", data, err) st'.
Proof.
  intros (data & err & st' & Hrun).
  rewrite (Process_run _ _ _ _ st0_generator) in Hrun.
  rewrite (dispatch_unknown _ _ (validated (ec2_client 0) (ssm_client 0) event_Bogus_foo))
    in Hrun; try discriminate.
  all: apply (validated_state_lookup st0 generator0).
Qed.

(** C5: without [Name], the recorded fault is not spelled ["missing
    required property 'Name'"]. *)
Lemma validateEvent_message_not_lowercase :
  ~ exists (trg : loc) st' g e,
      validateEvent mock 1%positive event_RSAKey_empty st0 = Returns trg st' /\
      heap st' !! trg = Some g /\
      validationError g = Some e /\
      Error e = "missing required property 'Name'".
Proof.
  intros (trg & st' & g & e & Hrun & Hg & Hfault & He).
  rewrite (validateEvent_run _ _ _ _ st0_generator) in Hrun.
  injection Hrun as <- <-. cbn [heap] in Hg.
  rewrite lookup_insert_eq in Hg. injection Hg as <-.
  injection Hfault as <-. discriminate He.
Qed.

(** C6: the fault-free context with the empty alphabet and length 1 gets
    no password: the generator panics. *)
Lemma handlePassword_empty_alphabet_panics :
  let g := context_of (event_Password_empty_alphabet 1) in
  validationError g = None /\ passwordLength g = 1%Z /\ alphabet g = "" /\
  exists st',
    handlePassword mock 1%positive (context_state g) = Panics integer_divide_by_zero st'.
Proof.
  cbn zeta. repeat split. eexists.
  apply (handlePassword_panics (env:=mock) _ _ _ (fun i => byte_of_nat i) 1
           (context_state_lookup _));
    try reflexivity.
  change (1 <= 1 <= 2 ^ 48)%Z. lia.
Qed.

(** C7: the built-in alphabet does not have 80 characters. *)
Lemma default_alphabet_not_80 :
  ~ exists (trg : loc) st' g,
      validateEvent mock 1%positive event_Password_K st0 = Returns trg st' /\
      heap st' !! trg = Some g /\
      String.length (alphabet g) = 80.
Proof.
  intros (trg & st' & g & Hrun & Hg & Hlen).
  rewrite (validateEvent_run _ _ _ _ st0_generator) in Hrun.
  injection Hrun as <- <-. cbn [heap] in Hg.
  rewrite lookup_insert_eq in Hg. injection Hg as <-.
  discriminate Hlen.
Qed.


(** C10: with the empty alphabet and length 0 the generator does not
    panic; it returns the empty password. *)
Lemma handlePassword_empty_alphabet_zero_length :
  let g := context_of (event_Password_empty_alphabet 0) in
  validationError g = None /\
  (Z.of_nat (String.length (alphabet g)) mod 256 = 0)%Z /\
  exists st',
    handlePassword mock 1%positive (context_state g)
    = Returns (Some (mkResponseSecret None None None (Some "")), None) st'.
Proof.
  cbn zeta. repeat split. eexists. vm_compute. reflexivity.
Qed.

(** *** The theorems at concrete inputs *)

Lemma mock_encoders_nonempty : encoders_nonempty mock.
Proof. split; intros; discriminate. Defined.

Lemma Process_identifier_witness :
  heap st0 !! 1%positive = Some generator0 /\
  exists err st',
    Process mock 1%positive event_KeyPair_K st0
    = Returns ("KeyPair:K", {["Response" := VNil]}, err) st' /\
    err = Some (errors_New "Missing required property 'PublicKey'").
Proof.
  split; [reflexivity|].
  destruct (Process_identifier (env:=mock) st0 1%positive generator0 event_KeyPair_K eq_refl)
    as (trg & st1 & ctx & _ & _ & _ & HKeyPair & _).
  destruct (HKeyPair eq_refl) as (err & st' & Hrun & Hname).
  destruct (Hname "K") as [HK Herr]; [reflexivity | intros s; vm_compute; discriminate |].
  exists err, st'. rewrite HK in Hrun. split; [exact Hrun | exact Herr].
Defined.

Lemma Process_unknown_kind_witness :
  heap st0 !! 1%positive = Some generator0 /\
  exists e st',
    Process mock 1%positive event_Bogus_foo st0
    = Returns ("Unknown:foo", {["Response" := VNil]}, Some e) st' /\
    Error e = "Unknown ResourceType".
Proof.
  split; [reflexivity|].
  destruct (Process_unknown_kind (env:=mock) st0 1%positive generator0 event_Bogus_foo eq_refl)
    as (trg & st1 & ctx & e & _ & _ & Hrun & He & Hname & _);
    try (vm_compute; discriminate).
  exists e, st1. rewrite (Hname "foo" eq_refl) in Hrun. split; [exact Hrun | exact He].
Defined.

Lemma store_failure_keeps_artifact_witness :
  encoders_nonempty mock /\
  (exists priv pub st',
     handleRSAKey mock 1%positive (context_state (context_of event_RSAKey_fail))
     = Returns (Some (mkResponseSecret (Some 2048%Z) (Some priv) (Some pub) None),
                Some awsError) st' /\
     priv <> "" /\ pub <> "" /\ pp_Value rsa_store_input = priv) /\
  (exists password st',
     handlePassword mock 1%positive (context_state (context_of event_Password_fail))
     = Returns (Some (mkResponseSecret None None None (Some password)), Some awsError) st' /\
     pp_Value password_store_input = password).
Proof.
  split; [exact mock_encoders_nonempty|]. split.
  - apply (proj1 (store_failure_keeps_artifact (env:=mock)
                    (context_state (context_of event_RSAKey_fail)) 1%positive
                    (ssm_client 0) rsa_store_input awsError
                    [call_PutParameter (ssm_client 0) rsa_store_input (Some awsError);
                     call_GenerateKey 2048 None]
                    mock_encoders_nonempty)).
    + vm_compute. reflexivity.
    + left. reflexivity.
  - apply (proj2 (store_failure_keeps_artifact (env:=mock)
                    (context_state (context_of event_Password_fail)) 1%positive
                    (ssm_client 0) password_store_input awsError
                    [call_PutParameter (ssm_client 0) password_store_input (Some awsError);
                     call_rand_Read 30 None]
                    mock_encoders_nonempty)).
    + vm_compute. reflexivity.
    + left. reflexivity.
Defined.

Lemma generators_return_fault_witness :
  let st := context_state (context_of event_RSAKey_empty) in
  heap st !! 1%positive = Some (context_of event_RSAKey_empty) /\
  validationError (context_of event_RSAKey_empty) = Some fault_Name /\
  handleRSAKey mock 1%positive st = Returns (None, Some fault_Name) st /\
  handleKeyPair mock 1%positive st = Returns (Some fault_Name) st /\
  handlePassword mock 1%positive st = Returns (None, Some fault_Name) st.
Proof.
  cbn zeta. split; [reflexivity|]. split; [reflexivity|].
  apply (generators_return_fault (env:=mock) _ 1%positive (context_of event_RSAKey_empty));
    reflexivity.
Defined.

Lemma validateEvent_missing_Name_witness :
  heap st0 !! 1%positive = Some generator0 /\
  exists (trg : loc) st' g' e,
    validateEvent mock 1%positive event_RSAKey_empty st0 = Returns trg st' /\
    heap st' !! trg = Some g' /\
    Name g' = "Unknown" /\
    validationError g' = Some e /\
    Error e = "Missing required property 'Name'".
Proof.
  split; [reflexivity|].
  apply (validateEvent_missing_Name (env:=mock) st0 1%positive generator0 event_RSAKey_empty);
    [reflexivity|].
  intros s. vm_compute. discriminate.
Defined.

Lemma handlePassword_password_witness :
  let g := context_of event_Password_K in
  validationError g = None /\
  String.length (alphabet g) = 81 /\
  exists password err st',
    handlePassword mock 1%positive (context_state g) =
      Returns (Some (mkResponseSecret None None None (Some password)), err) st' /\
    String.length password = 30 /\
    String.get 0 password = String.get 0 (alphabet g).
Proof.
  cbn zeta. split; [reflexivity|]. split; [reflexivity|].
  destruct (handlePassword_password (env:=mock)
              (context_state (context_of event_Password_K)) 1%positive
              (context_of event_Password_K) (fun i => byte_of_nat (0 + i)) 30)
    as (password & err & st' & Hrun & Hlen & _ & Hpick).
  - reflexivity.
  - reflexivity.
  - vm_compute. split; discriminate.
  - vm_compute. discriminate.
  - reflexivity.
  - exists password, err, st'. split; [exact Hrun|]. split; [exact Hlen|].
    destruct (Hpick ltac:(vm_compute; lia) 0 ltac:(vm_compute; lia)) as (c & H1 & H2).
    rewrite H1. symmetry. exact H2.
Defined.

Lemma validateEvent_defaults_witness :
  heap st0 !! 1%positive = Some generator0 /\
  exists (trg : loc) st' g',
    validateEvent mock 1%positive event_RSAKey_empty st0 = Returns trg st' /\
    heap st' !! trg = Some g' /\
    String.length (alphabet g') = 81 /\
    passwordLength g' = 30%Z.
Proof.
  split; [reflexivity|].
  destruct (validateEvent_defaults (env:=mock) st0 1%positive generator0 event_RSAKey_empty
              eq_refl)
    as (trg & st' & g' & Hrun & Hg & Halpha & Hlen).
  exists trg, st', g'. split; [exact Hrun|]. split; [exact Hg|]. split.
  - apply Halpha. intros s. vm_compute. discriminate.
  - apply Hlen. intros n. vm_compute. discriminate.
Defined.


Lemma Process_invocations_independent_witness :
  heap st0 !! 1%positive = Some generator0 /\
  heap (final (Process mock 1%positive event_KeyPair_K st0)) !! 1%positive = Some generator0 /\
  observe (Process mock 1%positive event_Password_K
             (final (Process mock 1%positive event_KeyPair_K st0)))
  = observe (Process mock 1%positive event_Password_K st0).
Proof.
  destruct (Process_invocations_independent (env:=mock)) as (Hframe & _ & Hseq).
  split; [reflexivity|]. split.
  - apply Hframe. reflexivity.
  - apply (Hseq st0 1%positive generator0 event_KeyPair_K event_Password_K). reflexivity.
Defined.

Lemma handlePassword_divide_by_zero_witness :
  let g := context_of (event_Password_empty_alphabet 1) in
  validationError g = None /\
  (Z.of_nat (String.length (alphabet g)) mod 256 = 0)%Z /\
  exists st',
    handlePassword mock 1%positive (context_state g) = Panics integer_divide_by_zero st'.
Proof.
  cbn zeta. split; [reflexivity|]. split; [reflexivity|].
  destruct (handlePassword_divide_by_zero (env:=mock)
              (context_state (context_of (event_Password_empty_alphabet 1))) 1%positive
              (context_of (event_Password_empty_alphabet 1)) (fun i => byte_of_nat (0 + i)) 1)
    as (Hpanic & _ & _).
  - reflexivity.
  - reflexivity.
  - vm_compute. split; discriminate.
  - reflexivity.
  - apply Hpanic; [reflexivity|]. vm_compute. discriminate.
Defined.

(** ** Further properties: the calls of the generators *)

Section GeneratorCalls.
Context {env : Env}.
Implicit Types (st : State env) (g : secretGenerator).

(** X1: [createSSMParameter] on a context without fault sends exactly one
    request to the context's own store client, of type [SecureString],
    carrying the key, value, description and overwrite flag it was given,
    returns the store's answer as it is and leaves the heap alone; on a
    context with a fault it returns the fault and does nothing. *)
Theorem createSSMParameter_contract st (sg : loc) g key value description override :
  heap st !! sg = Some g ->
  let input := mkPutParameterInput description key ssm_ParameterTypeSecureString
                 value override in
  (forall e, validationError g = Some e ->
     createSSMParameter env sg key value description override st = Returns (Some e) st) /\
  (validationError g = None ->
     createSSMParameter env sg key value description override st =
       Returns (ssm_PutParameter env (SSMClient g) input (world st)).1
         (mkState (heap st) (ssm_PutParameter env (SSMClient g) input (world st)).2
            (call_PutParameter (SSMClient g) input
               (ssm_PutParameter env (SSMClient g) input (world st)).1 :: calls st))).
Proof.
  intros Hsg input. unfold createSSMParameter, bind. rewrite (load_run _ _ _ Hsg).
  split.
  - intros e He. now rewrite He.
  - intros Hf. rewrite Hf. unfold external. fold input.
    now destruct (ssm_PutParameter env (SSMClient g) input (world st)).
Qed.

Lemma handleKeyPair_run st (sg : loc) g pk :
  heap st !! sg = Some g ->
  validationError g = None ->
  publicKey g = Some pk ->
  handleKeyPair env sg st =
    Returns (ec2_ImportKeyPair env (EC2Client g) (import_input (Name g) pk) (world st)).1
      (mkState (heap st)
         (ec2_ImportKeyPair env (EC2Client g) (import_input (Name g) pk) (world st)).2
         (call_ImportKeyPair (EC2Client g) (import_input (Name g) pk)
            (ec2_ImportKeyPair env (EC2Client g) (import_input (Name g) pk) (world st)).1
          :: calls st)).
Proof.
  intros Hsg Hf Hpk. unfold handleKeyPair, bind. rewrite (load_run _ _ _ Hsg), Hf, Hpk.
  unfold external, import_input.
  now destruct (ec2_ImportKeyPair env (EC2Client g) _ (world st)).
Qed.

(** X2: on a fault-free context with a public key, [handleKeyPair] sends
    exactly one import request to the context's own EC2 client, named by
    the context's name and carrying the bytes of the public key string
    unchanged (converting them back gives the string), returns the
    service's answer as it is, writes nothing to the store and leaves the
    heap alone. *)
Theorem handleKeyPair_imports st (sg : loc) g pk :
  heap st !! sg = Some g ->
  validationError g = None ->
  publicKey g = Some pk ->
  exists input answer w,
    ec2_ImportKeyPair env (EC2Client g) input (world st) = (answer, w) /\
    ik_KeyName input = Name g /\
    string_of_list_byte (ik_PublicKeyMaterial input) = pk /\
    handleKeyPair env sg st =
      Returns answer
        (mkState (heap st) w (call_ImportKeyPair (EC2Client g) input answer :: calls st)).
Proof.
  intros Hsg Hf Hpk. rewrite (handleKeyPair_run st sg g pk Hsg Hf Hpk).
  destruct (ec2_ImportKeyPair env (EC2Client g) (import_input (Name g) pk) (world st))
    as [answer w] eqn:E.
  exists (import_input (Name g) pk), answer, w. split; [exact E|].
  split; [reflexivity|]. split; [apply string_of_list_byte_of_string | reflexivity].
Qed.

Lemma handleKeyPair_missing_run st (sg : loc) g :
  heap st !! sg = Some g ->
  validationError g = None ->
  publicKey g = None ->
  handleKeyPair env sg st =
    Returns (Some (errors_New "Missing required property 'PublicKey'"))
      (mkState (<[sg := set_validationError
                          (Some (errors_New "Missing required property 'PublicKey'")) g]>
                  (heap st))
               (world st) (calls st)).
Proof.
  intros Hsg Hf Hpk. unfold handleKeyPair, bind at 1.
  rewrite (load_run _ _ _ Hsg), Hf, Hpk.
  unfold bind at 1. rewrite (modify_run _ _ _ _ Hsg).
  unfold bind, load. cbn [heap]. now rewrite lookup_insert_eq.
Qed.

(** X3: when the public key is missing on a fault-free context,
    [handleKeyPair] calls nothing outside (world and log unchanged), and
    the fault it records is sticky: afterwards every generator and
    [createSSMParameter], run on that context, return the same fault and
    do nothing. *)
Theorem handleKeyPair_fault_is_sticky st (sg : loc) g :
  heap st !! sg = Some g ->
  validationError g = None ->
  publicKey g = None ->
  exists e st',
    Error e = "Missing required property 'PublicKey'" /\
    handleKeyPair env sg st = Returns (Some e) st' /\
    world st' = world st /\ calls st' = calls st /\
    handleKeyPair env sg st' = Returns (Some e) st' /\
    handleRSAKey env sg st' = Returns (None, Some e) st' /\
    handlePassword env sg st' = Returns (None, Some e) st' /\
    forall key value description override,
      createSSMParameter env sg key value description override st' = Returns (Some e) st'.
Proof.
  intros Hsg Hf Hpk. rewrite (handleKeyPair_missing_run st sg g Hsg Hf Hpk).
  set (e := errors_New "Missing required property 'PublicKey'").
  set (st' := mkState _ _ _).
  assert (Hsg' : heap st' !! sg = Some (set_validationError (Some e) g))
    by (unfold st'; cbn; apply lookup_insert_eq).
  exists e, st'. repeat split.
  - apply (handleKeyPair_fault st' sg _ e Hsg'). reflexivity.
  - apply (handleRSAKey_fault st' sg _ e Hsg'). reflexivity.
  - apply (handlePassword_fault st' sg _ e Hsg'). reflexivity.
  - intros key value description override.
    unfold createSSMParameter, bind. now rewrite (load_run _ _ _ Hsg').
Qed.

Lemma handleRSAKey_run st (sg : loc) g k w pub :
  heap st !! sg = Some g ->
  validationError g = None ->
  rsa_GenerateKey env 2048 (world st) = (inl k, w) ->
  rsa_Validate env k = None ->
  ssh_NewPublicKey env k = inl pub ->
  handleRSAKey env sg st =
    let input := rsa_input (Name g) (private_pem env k) in
    Returns
      (Some (mkResponseSecret (Some 2048%Z) (Some (private_pem env k))
               (Some (authorized_key env pub)) None),
       (ssm_PutParameter env (SSMClient g) input w).1)
      (mkState (heap st) (ssm_PutParameter env (SSMClient g) input w).2
         (call_PutParameter (SSMClient g) input (ssm_PutParameter env (SSMClient g) input w).1
          :: call_GenerateKey 2048 None :: calls st)).
Proof.
  intros Hsg Hf Hgen Hval Hpub.
  unfold handleRSAKey, bind at 1. rewrite (load_run _ _ _ Hsg), Hf.
  unfold bind at 1, external at 1. rewrite Hgen, Hval, Hpub.
  unfold bind at 1, load at 1. cbn [heap]. rewrite Hsg.
  unfold bind at 1, createSSMParameter, bind at 1, load at 1. cbn [heap].
  rewrite Hsg, Hf. unfold external. cbn [world heap calls fault_of].
  unfold rsa_input, private_pem, authorized_key. cbn zeta.
  now destruct (ssm_PutParameter env _ _ w).
Qed.

(** X4: a full run of [handleRSAKey]: when key generation, validation and
    the SSH conversion succeed, one key of 2048 bits is generated and then
    exactly one store request is sent, named by the context's name, typed
    [SecureString], described as "RSA private key", never overwriting, whose
    value is the PEM text of that key; the response carries the key length
    2048, the same PEM text and the authorized-key text of the public key,
    and no password; the error is the store's answer, whatever it is. *)
Theorem handleRSAKey_stores_private_key st (sg : loc) g k w pub :
  heap st !! sg = Some g ->
  validationError g = None ->
  rsa_GenerateKey env 2048 (world st) = (inl k, w) ->
  rsa_Validate env k = None ->
  ssh_NewPublicKey env k = inl pub ->
  exists input answer w',
    ssm_PutParameter env (SSMClient g) input w = (answer, w') /\
    pp_Name input = Name g /\
    pp_Type input = "SecureString" /\
    pp_Description input = "RSA private key" /\
    pp_Overwrite input = false /\
    pp_Value input = private_pem env k /\
    handleRSAKey env sg st =
      Returns
        (Some (mkResponseSecret (Some 2048%Z) (Some (private_pem env k))
                 (Some (authorized_key env pub)) None), answer)
        (mkState (heap st) w'
           (call_PutParameter (SSMClient g) input answer
            :: call_GenerateKey 2048 None :: calls st)).
Proof.
  intros Hsg Hf Hgen Hval Hpub.
  rewrite (handleRSAKey_run st sg g k w pub Hsg Hf Hgen Hval Hpub). cbn zeta.
  destruct (ssm_PutParameter env (SSMClient g) (rsa_input (Name g) (private_pem env k)) w)
    as [answer w'] eqn:E.
  exists (rsa_input (Name g) (private_pem env k)), answer, w'.
  split; [exact E|]. repeat split.
Qed.

(** X5: a fault of the crypto library ends [handleRSAKey] at once: whether
    key generation, key validation or the SSH conversion fails, the
    generator returns that very error with no response, and nothing is
    written to the parameter store (the log gains the key generation
    only). *)
Theorem handleRSAKey_generation_faults st (sg : loc) g :
  heap st !! sg = Some g ->
  validationError g = None ->
  (forall e w, rsa_GenerateKey env 2048 (world st) = (inr e, w) ->
     handleRSAKey env sg st =
       Returns (None, Some e)
         (mkState (heap st) w (call_GenerateKey 2048 (Some e) :: calls st))) /\
  (forall k w e, rsa_GenerateKey env 2048 (world st) = (inl k, w) ->
     rsa_Validate env k = Some e \/
     (rsa_Validate env k = None /\ ssh_NewPublicKey env k = inr e) ->
     handleRSAKey env sg st =
       Returns (None, Some e)
         (mkState (heap st) w (call_GenerateKey 2048 None :: calls st))).
Proof.
  intros Hsg Hf. split.
  - intros e w Hgen. unfold handleRSAKey, bind at 1. rewrite (load_run _ _ _ Hsg), Hf.
    unfold bind, external. now rewrite Hgen.
  - intros k w e Hgen Hfail. unfold handleRSAKey, bind at 1.
    rewrite (load_run _ _ _ Hsg), Hf. unfold bind at 1, external. rewrite Hgen.
    destruct Hfail as [Hval | [Hval Hpub]].
    + now rewrite Hval.
    + now rewrite Hval, Hpub.
Qed.

End GeneratorCalls.

(** ** Further properties: the password generator *)

Section PasswordCalls.
Context {env : Env}.
Implicit Types (st : State env) (g : secretGenerator).

(** X6: a full run of [handlePassword]: exactly [L] random bytes are
    drawn in one read, then exactly one store request is sent, named by the
    context's name, typed [SecureString], described as "Password", never
    overwriting, whose value is the very password that the response
    carries; the response has no other field, and the error is the store's
    answer, whatever it is. *)
Theorem handlePassword_stores_password st (sg : loc) g src w :
  heap st !! sg = Some g ->
  validationError g = None ->
  (0 <= passwordLength g <= maxAlloc)%Z ->
  (Z.of_nat (String.length (alphabet g)) mod 256 <> 0)%Z ->
  rand_Read env (Z.to_nat (passwordLength g)) (world st) = (src, None, w) ->
  exists password input answer w',
    ssm_PutParameter env (SSMClient g) input w = (answer, w') /\
    pp_Name input = Name g /\
    pp_Type input = "SecureString" /\
    pp_Description input = "Password" /\
    pp_Overwrite input = false /\
    pp_Value input = password /\
    handlePassword env sg st =
      Returns (Some (mkResponseSecret None None None (Some password)), answer)
        (mkState (heap st) w'
           (call_PutParameter (SSMClient g) input answer
            :: call_rand_Read (Z.to_nat (passwordLength g)) None :: calls st)).
Proof.
  intros Hsg Hf HL HA Hrand.
  rewrite (handlePassword_run st sg g src w Hsg Hf HL HA Hrand). cbn zeta.
  destruct (ssm_PutParameter env (SSMClient g)
              (password_input g (password_of g src)) w) as [answer w'] eqn:E.
  exists (password_of g src), (password_input g (password_of g src)), answer, w'.
  split; [exact E|]. repeat split.
Qed.

(** X7: when the entropy source fails, [handlePassword] returns its error
    with no response, and nothing is written to the parameter store. *)
Theorem handlePassword_entropy_fault st (sg : loc) g src e w :
  heap st !! sg = Some g ->
  validationError g = None ->
  (0 <= passwordLength g <= maxAlloc)%Z ->
  rand_Read env (Z.to_nat (passwordLength g)) (world st) = (src, Some e, w) ->
  handlePassword env sg st =
    Returns (None, Some e)
      (mkState (heap st) w
         (call_rand_Read (Z.to_nat (passwordLength g)) (Some e) :: calls st)).
Proof.
  intros Hsg Hf HL Hrand.
  unfold handlePassword, bind at 1. rewrite (load_run _ _ _ Hsg), Hf.
  unfold bind at 1. rewrite (make_bytes_run _ _ HL).
  unfold bind, external. now rewrite length_replicate, Hrand.
Qed.

Lemma handlePassword_negative st (sg : loc) g :
  heap st !! sg = Some g ->
  validationError g = None ->
  (passwordLength g < 0)%Z ->
  handlePassword env sg st = Panics makeslice_len_out_of_range st.
Proof.
  intros Hsg Hf HL. unfold handlePassword, bind at 1. rewrite (load_run _ _ _ Hsg), Hf.
  unfold bind, make_bytes. destruct (decide _) as [_|H]; [reflexivity|]. lia.
Qed.

(** Every way in which [handlePassword] can panic. *)
Lemma handlePassword_panic_inv st (sg : loc) g p st' :
  heap st !! sg = Some g ->
  handlePassword env sg st = Panics p st' ->
  validationError g = None /\
  ((p = makeslice_len_out_of_range /\
    (passwordLength g < 0 \/ maxAlloc < passwordLength g)%Z) \/
   (p = integer_divide_by_zero /\
    (1 <= passwordLength g <= maxAlloc)%Z /\
    (Z.of_nat (String.length (alphabet g)) mod 256 = 0)%Z)).
Proof.
  intros Hsg. destruct (validationError g) as [e|] eqn:Hf.
  { rewrite (handlePassword_fault st sg g e Hsg Hf). discriminate. }
  destruct (decide (passwordLength g < 0 \/ maxAlloc < passwordLength g)%Z) as [Hbad|HL].
  { unfold handlePassword, bind at 1. rewrite (load_run _ _ _ Hsg), Hf.
    unfold bind, make_bytes. destruct (decide _); [|contradiction].
    intros H. injection H as <- _. split; [reflexivity|]. left. now split. }
  assert (HL' : (0 <= passwordLength g <= maxAlloc)%Z) by lia.
  destruct (rand_Read env (Z.to_nat (passwordLength g)) (world st))
    as [[src [e|]] w] eqn:Hrand.
  { unfold handlePassword, bind at 1. rewrite (load_run _ _ _ Hsg), Hf.
    unfold bind at 1. rewrite (make_bytes_run _ _ HL').
    unfold bind, external. rewrite length_replicate, Hrand. discriminate. }
  destruct (decide (Z.of_nat (String.length (alphabet g)) mod 256 = 0)%Z) as [Hm|Hm].
  - destruct (decide (passwordLength g = 0)%Z) as [H0|H0].
    + unfold handlePassword, bind at 1. rewrite (load_run _ _ _ Hsg), Hf.
      unfold bind at 1. rewrite (make_bytes_run _ _ HL').
      unfold bind at 1, external. rewrite length_replicate, Hrand.
      unfold bind at 1, load at 1. cbn [heap]. rewrite Hsg.
      rewrite H0. change (Z.to_nat 0) with 0.
      unfold bind at 1. cbn [seq fmap list_fmap length password_loop]. unfold ret at 1.
      unfold bind at 1, load at 1. cbn [heap]. rewrite Hsg.
      unfold bind at 1, createSSMParameter, bind at 1, load at 1. cbn [heap].
      rewrite Hsg, Hf. unfold external. cbn [world].
      destruct (ssm_PutParameter env _ _ w). discriminate.
    + rewrite (handlePassword_panics st sg g src w Hsg Hf) by (try assumption; lia).
      intros H. injection H as <- _. split; [reflexivity|]. right.
      repeat split; try assumption; lia.
  - rewrite (handlePassword_run st sg g src w Hsg Hf HL' Hm Hrand). cbn zeta.
    destruct (ssm_PutParameter env _ _ w). discriminate.
Qed.

(** X8: every byte of a generated password is one of the first
    [len(alphabet) mod 256] bytes of the alphabet: the divisor of the loop
    is [byte(len(alphabet))], so for an alphabet of fewer than 256 bytes any
    of its bytes can appear, and for a longer one the bytes from index
    [len mod 256] on never do. *)
Theorem handlePassword_uses_alphabet_prefix st (sg : loc) g src w :
  heap st !! sg = Some g ->
  validationError g = None ->
  (0 <= passwordLength g <= maxAlloc)%Z ->
  (Z.of_nat (String.length (alphabet g)) mod 256 <> 0)%Z ->
  rand_Read env (Z.to_nat (passwordLength g)) (world st) = (src, None, w) ->
  exists password err st',
    handlePassword env sg st =
      Returns (Some (mkResponseSecret None None None (Some password)), err) st' /\
    forall i c, String.get i password = Some c ->
      exists j, (Z.of_nat j < Z.of_nat (String.length (alphabet g)) mod 256)%Z /\
                String.get j (alphabet g) = Some c.
Proof.
  intros Hsg Hf HL HA Hrand.
  set (m := byte_of_int (Z.of_nat (String.length (alphabet g)))).
  assert (Hm : (0 < m <= Z.of_nat (String.length (alphabet g)))%Z).
  { pose proof (byte_of_int_le (Z.of_nat (String.length (alphabet g)))).
    unfold m, byte_of_int in *. lia. }
  rewrite (handlePassword_run st sg g src w Hsg Hf HL HA Hrand). cbn zeta.
  destruct (ssm_PutParameter env _ _ w) as [err w'].
  eexists _, _, _. split; [reflexivity|].
  intros i c Hc. unfold password_of in Hc. fold m in Hc.
  rewrite string_of_list_byte_get, !list_lookup_fmap in Hc.
  destruct (seq 0 (Z.to_nat (passwordLength g)) !! i) as [k|] eqn:Hk; [|discriminate].
  cbn in Hc. injection Hc as <-.
  exists (Z.to_nat (byte_value (src k) mod m)). split.
  - pose proof (Z.mod_pos_bound (byte_value (src k)) m). fold (byte_of_int (Z.of_nat (String.length (alphabet g)))). fold m. lia.
  - now apply pick_get.
Qed.

End PasswordCalls.

(** ** Further properties: the bias of the modulo reduction *)

Section ModuloBias.








End ModuloBias.

(** ** Further properties: the validator *)

Section ValidatorProperties.
Context {env : Env}.
Implicit Types (st : State env) (g : secretGenerator).

(** X10: [validateEvent] builds its context at an address that was not in
    use, changes no struct that existed (the receiver included), calls
    nothing outside, and takes from the receiver its two clients and
    nothing else: a fault recorded in the receiver is not inherited, the new
    context has a fault exactly when the event's [Name] is not a string. *)
Theorem validateEvent_fresh_context st (sg : loc) g event :
  heap st !! sg = Some g ->
  exists (trg : loc) st' ctx,
    validateEvent env sg event st = Returns trg st' /\
    heap st !! trg = None /\
    heap st' !! trg = Some ctx /\
    (forall l : loc, l <> trg -> heap st' !! l = heap st !! l) /\
    world st' = world st /\ calls st' = calls st /\
    EC2Client ctx = EC2Client g /\ SSMClient ctx = SSMClient g /\
    (validationError ctx = None <->
     exists s, ResourceProperties event !! "Name" = Some (VString s)).
Proof.
  intros Hsg. rewrite (validateEvent_run _ _ _ _ Hsg).
  eexists _, _, _. split; [reflexivity|]. cbn [heap world calls].
  split; [|split; [apply lookup_insert_eq|]].
  { apply not_elem_of_dom, is_fresh. }
  split; [intros l Hl; now apply lookup_insert_ne|].
  repeat split; unfold validated; cbn [validationError].
  - destruct (ResourceProperties event !! "Name") as [[]|]; cbn; try discriminate. eauto.
  - intros [s ->]. reflexivity.
Qed.

(** X11: [validateEvent] takes the optional properties as they come,
    without checking them: a string [PublicKey] is kept, any other or no
    [PublicKey] leaves the key unset; a string [Alphabet] is kept even when
    empty; an int [Length] is kept even when negative or zero; none of the
    three ever records a fault. *)
Theorem validateEvent_keeps_properties st (sg : loc) g event :
  heap st !! sg = Some g ->
  exists (trg : loc) st' ctx,
    validateEvent env sg event st = Returns trg st' /\
    heap st' !! trg = Some ctx /\
    (forall s, ResourceProperties event !! "Name" = Some (VString s) ->
       Name ctx = s /\ validationError ctx = None) /\
    (forall pk, ResourceProperties event !! "PublicKey" = Some (VString pk) ->
       publicKey ctx = Some pk) /\
    ((forall pk, ResourceProperties event !! "PublicKey" <> Some (VString pk)) ->
       publicKey ctx = None) /\
    (forall a, ResourceProperties event !! "Alphabet" = Some (VString a) ->
       alphabet ctx = a) /\
    (forall n, ResourceProperties event !! "Length" = Some (VInt n) ->
       passwordLength ctx = n).
Proof.
  intros Hsg. rewrite (validateEvent_run _ _ _ _ Hsg).
  eexists _, _, _. split; [reflexivity|]. cbn [heap].
  split; [apply lookup_insert_eq|].
  unfold validated, validatedName.
  cbn [Name validationError publicKey alphabet passwordLength].
  split; [|split; [|split; [|split]]].
  - intros s ->. split; reflexivity.
  - intros pk ->. reflexivity.
  - intros H. now rewrite (assert_string_fails _ H).
  - intros a ->. reflexivity.
  - intros n ->. reflexivity.
Qed.

End ValidatorProperties.

(** ** Further properties: the dispatcher *)

Section DispatcherProperties.
Context {env : Env}.
Implicit Types (st : State env) (g : secretGenerator).

Lemma dispatch_fault st (l : loc) g e event :
  heap st !! l = Some g ->
  validationError g = Some e ->
  (ResourceType event = "Custom::RSAKey" ->
   dispatch env l event st
   = Returns ("RSAKey:" +:+ Name g, {["Response" := VNil]}, Some e) st) /\
  (ResourceType event = "Custom::KeyPair" ->
   dispatch env l event st
   = Returns ("KeyPair:" +:+ Name g, {["Response" := VNil]}, Some e) st) /\
  (ResourceType event = "Custom::Password" ->
   dispatch env l event st
   = Returns ("Password:" +:+ Name g, {["Response" := VNil]}, Some e) st).
Proof.
  intros Hl He. unfold dispatch. split; [|split]; intros Hkind; rewrite Hkind.
  - destruct (decide _) as [_|H]; [|now destruct H].
    unfold bind at 1, bind at 1. rewrite (handleRSAKey_fault st l g e Hl He).
    unfold bind, load. now rewrite Hl.
  - destruct (decide _) as [H|_]; [discriminate H|].
    destruct (decide _) as [_|H]; [|now destruct H].
    unfold bind at 1, bind at 1. rewrite (handleKeyPair_fault st l g e Hl He).
    unfold bind, load. now rewrite Hl.
  - destruct (decide _) as [H|_]; [discriminate H|].
    destruct (decide _) as [H|_]; [discriminate H|].
    destruct (decide _) as [_|H]; [|now destruct H].
    unfold bind at 1, bind at 1. rewrite (handlePassword_fault st l g e Hl He).
    unfold bind, load. now rewrite Hl.
Qed.

(** X12: a request of a recognized kind whose [Name] is absent or not a
    string is answered without any work: [Process] returns the identifier
    ["<Kind>:Unknown"], the empty response and the fault
    ["Missing required property 'Name'"], and nothing outside was called
    (world and log are as before). *)
Theorem Process_missing_Name st (sg : loc) g event :
  heap st !! sg = Some g ->
  (forall s, ResourceProperties event !! "Name" <> Some (VString s)) ->
  is_recognized (ResourceType event) ->
  exists id e st',
    Process env sg event st = Returns (id, {["Response" := VNil]}, Some e) st' /\
    "Custom::" +:+ id = ResourceType event +:+ ":Unknown" /\
    Error e = "Missing required property 'Name'" /\
    world st' = world st /\ calls st' = calls st.
Proof.
  intros Hsg Hname Hkind. rewrite (Process_run _ _ _ _ Hsg).
  pose proof (validated_state_lookup st g event) as Hctx.
  assert (Hf : validationError (validated (EC2Client g) (SSMClient g) event)
               = Some (errors_New "Missing required property 'Name'")).
  { unfold validated. cbn [validationError]. now rewrite (assert_string_fails _ Hname). }
  assert (Hn : Name (validated (EC2Client g) (SSMClient g) event) = "Unknown").
  { unfold validated. cbn [Name]. now apply validatedName_missing. }
  destruct (dispatch_fault _ _ _ _ event Hctx Hf) as (HR & HK & HP).
  destruct Hkind as [Hk | [Hk | Hk]].
  - rewrite (HR Hk), Hn, Hk. eexists _, _, _. split; [reflexivity|]. repeat split.
  - rewrite (HK Hk), Hn, Hk. eexists _, _, _. split; [reflexivity|]. repeat split.
  - rewrite (HP Hk), Hn, Hk. eexists _, _, _. split; [reflexivity|]. repeat split.
Qed.

(** The responses that the two generators with a response can return. *)
Lemma handleRSAKey_response st (sg : loc) response err st' :
  handleRSAKey env sg st = Returns (response, err) st' ->
  (exists priv pub,
     response = Some (mkResponseSecret (Some 2048%Z) (Some priv) (Some pub) None)) \/
  (response = None /\ is_Some err).
Proof.
  unfold handleRSAKey, bind at 1, load at 1.
  destruct (heap st !! sg) as [g|] eqn:Hsg; [|discriminate].
  destruct (validationError g) eqn:Hf.
  { intros H. injection H as <- <- _. right. eauto. }
  unfold bind at 1, external at 1.
  destruct (rsa_GenerateKey env 2048 (world st)) as [[k|e1] w1].
  2: { intros H. injection H as <- <- _. right. eauto. }
  destruct (rsa_Validate env k).
  { intros H. injection H as <- <- _. right. eauto. }
  destruct (ssh_NewPublicKey env k) as [pub|e2].
  2: { intros H. injection H as <- <- _. right. eauto. }
  unfold bind at 1, load at 1. cbn [heap]. rewrite Hsg.
  unfold bind at 1, createSSMParameter, bind at 1, load at 1. cbn [heap].
  rewrite Hsg, Hf. unfold external. cbn [world heap calls].
  destruct (ssm_PutParameter env _ _ w1) as [answer w2].
  intros H. injection H as <- _ _. left. eauto.
Qed.

Lemma handlePassword_response st (sg : loc) response err st' :
  handlePassword env sg st = Returns (response, err) st' ->
  (exists password,
     response = Some (mkResponseSecret None None None (Some password))) \/
  (response = None /\ is_Some err).
Proof.
  unfold handlePassword, bind at 1, load at 1.
  destruct (heap st !! sg) as [g|] eqn:Hsg; [|discriminate].
  destruct (validationError g) eqn:Hf.
  { intros H. injection H as <- <- _. right. eauto. }
  unfold bind at 1, make_bytes.
  destruct (decide _); [discriminate|]. unfold ret at 1.
  unfold bind at 1, external at 1.
  destruct (rand_Read env _ (world st)) as [[src [e1|]] w1].
  { intros H. injection H as <- <- _. right. eauto. }
  unfold bind at 1, load at 1. cbn [heap]. rewrite Hsg.
  unfold bind at 1.
  match goal with |- context [password_loop env sg ?l ?n ?i ?b ?s] =>
    pose proof (password_loop_final sg l n i b s) as Hloop;
    destruct (password_loop env sg l n i b s) as [buff st1|p st1]
  end; cbn [final] in Hloop; subst st1; [|discriminate].
  unfold bind at 1, load at 1. cbn [heap]. rewrite Hsg.
  unfold bind at 1, createSSMParameter, bind at 1, load at 1. cbn [heap].
  rewrite Hsg, Hf. unfold external. cbn [world heap calls].
  destruct (ssm_PutParameter env _ _ w1) as [answer w2].
  intros H. injection H as <- _ _. left. eauto.
Qed.

Lemma dispatch_payload st (l : loc) event id data err st' :
  dispatch env l event st = Returns (id, data, err) st' ->
  (ResourceType event = "Custom::RSAKey" /\
   ((exists priv pub,
       data = {["Response" :=
                 VResponseSecret (mkResponseSecret (Some 2048%Z) (Some priv) (Some pub) None)]}) \/
    (data = {["Response" := VNil]} /\ is_Some err))) \/
  (ResourceType event = "Custom::Password" /\
   ((exists password,
       data = {["Response" :=
                 VResponseSecret (mkResponseSecret None None None (Some password))]}) \/
    (data = {["Response" := VNil]} /\ is_Some err))) \/
  (ResourceType event <> "Custom::RSAKey" /\ ResourceType event <> "Custom::Password" /\
   data = {["Response" := VNil]} /\
   (ResourceType event <> "Custom::KeyPair" -> is_Some err)).
Proof.
  unfold dispatch.
  destruct (decide (ResourceType event = "Custom::RSAKey")) as [HR|HR].
  { unfold bind at 1, bind at 1.
    destruct (handleRSAKey env l st) as [[response e] st1|p st1] eqn:Hrun; [|discriminate].
    unfold bind at 1, load. destruct (heap st1 !! l); [|discriminate]. cbn.
    intros H. injection H as _ <- <- _. left. split; [exact HR|].
    destruct (handleRSAKey_response _ _ _ _ _ Hrun) as [(priv & pub & ->) | [-> He]]; eauto. }
  destruct (decide (ResourceType event = "Custom::KeyPair")) as [HK|HK].
  { unfold bind at 1, bind at 1.
    destruct (handleKeyPair env l st) as [e st1|p st1]; [|discriminate].
    unfold bind at 1, load. destruct (heap st1 !! l); [|discriminate]. cbn.
    intros H. injection H as _ <- _ _. right. right.
    repeat split; try assumption; try reflexivity.
    - rewrite HK. discriminate.
    - intros Hne. contradiction. }
  destruct (decide (ResourceType event = "Custom::Password")) as [HP|HP].
  { unfold bind at 1, bind at 1.
    destruct (handlePassword env l st) as [[response e] st1|p st1] eqn:Hrun; [|discriminate].
    unfold bind at 1, load. destruct (heap st1 !! l); [|discriminate]. cbn.
    intros H. injection H as _ <- <- _. right. left. split; [exact HP|].
    destruct (handlePassword_response _ _ _ _ _ Hrun) as [(pw & ->) | [-> He]]; eauto. }
  unfold bind, load. destruct (heap st !! l); [|discriminate]. cbn.
  intros H. injection H as _ <- <- _. right. right. repeat split; eauto.
Qed.

(** X13: the payload of [Process].  Whenever it returns, the data map has
    the single key ["Response"]; for [Custom::RSAKey] its value is either a
    response with key length 2048, a private and a public key and no
    password, or nil together with an error; for [Custom::Password] either a
    response with a password and no other field, or nil together with an
    error; for every other kind it is nil, and for an unknown kind an error
    is returned.  So a run without error of the two generating kinds always
    carries its artifact. *)
Theorem Process_payload st (sg : loc) event id data err st' :
  Process env sg event st = Returns (id, data, err) st' ->
  dom data = {["Response"]} /\
  ((ResourceType event = "Custom::RSAKey" /\
    ((exists priv pub,
        data !! "Response" =
          Some (VResponseSecret (mkResponseSecret (Some 2048%Z) (Some priv) (Some pub) None))) \/
     (data !! "Response" = Some VNil /\ is_Some err))) \/
   (ResourceType event = "Custom::Password" /\
    ((exists password,
        data !! "Response" =
          Some (VResponseSecret (mkResponseSecret None None None (Some password)))) \/
     (data !! "Response" = Some VNil /\ is_Some err))) \/
   (ResourceType event <> "Custom::RSAKey" /\ ResourceType event <> "Custom::Password" /\
    data !! "Response" = Some VNil /\
    (ResourceType event <> "Custom::KeyPair" -> is_Some err))).
Proof.
  intros Hrun. destruct (heap st !! sg) as [g|] eqn:Hsg.
  2: { rewrite Process_unfold in Hrun. unfold bind, validateEvent, bind, load in Hrun.
       rewrite Hsg in Hrun. discriminate. }
  rewrite (Process_run _ _ _ _ Hsg) in Hrun.
  destruct (dispatch_payload _ _ _ _ _ _ _ Hrun)
    as [[HR [(priv & pub & ->) | [-> He]]]
       | [[HP [(pw & ->) | [-> He]]] | (H1 & H2 & -> & He)]];
    (split; [apply dom_singleton_L|]).
  - left. split; [exact HR|]. left. exists priv, pub. apply lookup_singleton_eq.
  - left. split; [exact HR|]. right. split; [apply lookup_singleton_eq | exact He].
  - right. left. split; [exact HP|]. left. exists pw. apply lookup_singleton_eq.
  - right. left. split; [exact HP|]. right. split; [apply lookup_singleton_eq | exact He].
  - right. right. split; [exact H1|]. split; [exact H2|].
    split; [apply lookup_singleton_eq | exact He].
Qed.

Lemma dispatch_Password_outcome st (l : loc) g event :
  ResourceType event = "Custom::Password" ->
  heap st !! l = Some g ->
  forall p st',
    dispatch env l event st = Panics p st' <-> handlePassword env l st = Panics p st'.
Proof.
  intros Hkind Hl p st'. unfold dispatch. rewrite Hkind.
  destruct (decide _) as [H|_]; [discriminate H|].
  destruct (decide _) as [H|_]; [discriminate H|].
  destruct (decide _) as [_|H]; [|now destruct H].
  pose proof (keeps_handlePassword l st) as Hkeep.
  unfold bind at 1, bind at 1.
  destruct (handlePassword env l st) as [[response err] st1|p1 st1]; cbn [final] in Hkeep.
  - unfold bind at 1, load. rewrite Hkeep, Hl. cbn. split; discriminate.
  - split; intros H; injection H as <- <-; reflexivity.
Qed.

(** [Process] panics only in the password generator. *)
Lemma Process_panic_kind st (sg : loc) g event p st' :
  heap st !! sg = Some g ->
  Process env sg event st = Panics p st' ->
  ResourceType event = "Custom::Password" /\
  (p = makeslice_len_out_of_range \/ p = integer_divide_by_zero).
Proof.
  intros Hsg Hrun. rewrite (Process_run _ _ _ _ Hsg) in Hrun.
  pose proof (validated_state_lookup st g event) as Hctx.
  set (ctx := validated (EC2Client g) (SSMClient g) event) in *.
  destruct (decide (ResourceType event = "Custom::RSAKey")) as [HR|HR].
  { destruct (dispatch_RSAKey _ _ ctx event HR Hctx) as (? & ? & ? & E).
    rewrite E in Hrun. discriminate. }
  destruct (decide (ResourceType event = "Custom::KeyPair")) as [HK|HK].
  { destruct (dispatch_KeyPair _ _ ctx event HK Hctx) as (? & ? & E & _).
    rewrite E in Hrun. discriminate. }
  destruct (decide (ResourceType event = "Custom::Password")) as [HP|HP].
  2: { rewrite (dispatch_unknown _ _ ctx event HR HK HP Hctx) in Hrun. discriminate. }
  apply (dispatch_Password_outcome _ _ ctx event HP Hctx) in Hrun.
  destruct (handlePassword_panic_inv _ _ ctx _ _ Hctx Hrun) as [_ [[-> _] | [-> _]]]; eauto.
Qed.

(** X14: [Process] on an existing generator can panic for one kind of
    request only: [Custom::Password] with a string [Name], and then either
    in the slice allocation, for an int [Length] that is negative or beyond
    [maxAlloc], or by dividing by zero, for a string [Alphabet] whose length
    is a multiple of 256 (the empty string included).  With the defaults, or
    for any other kind, it always returns. *)
Theorem Process_panics_only st (sg : loc) g event p st' :
  heap st !! sg = Some g ->
  Process env sg event st = Panics p st' ->
  ResourceType event = "Custom::Password" /\
  (exists name, ResourceProperties event !! "Name" = Some (VString name)) /\
  ((p = makeslice_len_out_of_range /\
    exists n, ResourceProperties event !! "Length" = Some (VInt n) /\
              (n < 0 \/ maxAlloc < n)%Z) \/
   (p = integer_divide_by_zero /\
    exists a, ResourceProperties event !! "Alphabet" = Some (VString a) /\
              (Z.of_nat (String.length a) mod 256 = 0)%Z)).
Proof.
  intros Hsg Hrun. rewrite (Process_run _ _ _ _ Hsg) in Hrun.
  pose proof (validated_state_lookup st g event) as Hctx.
  set (ctx := validated (EC2Client g) (SSMClient g) event) in *.
  destruct (decide (ResourceType event = "Custom::RSAKey")) as [HR|HR].
  { destruct (dispatch_RSAKey _ _ ctx event HR Hctx) as (? & ? & ? & E).
    rewrite E in Hrun. discriminate. }
  destruct (decide (ResourceType event = "Custom::KeyPair")) as [HK|HK].
  { destruct (dispatch_KeyPair _ _ ctx event HK Hctx) as (? & ? & E & _).
    rewrite E in Hrun. discriminate. }
  destruct (decide (ResourceType event = "Custom::Password")) as [HP|HP].
  2: { rewrite (dispatch_unknown _ _ ctx event HR HK HP Hctx) in Hrun. discriminate. }
  apply (dispatch_Password_outcome _ _ ctx event HP Hctx) in Hrun.
  destruct (handlePassword_panic_inv _ _ ctx _ _ Hctx Hrun) as [Hf Hwhy].
  split; [exact HP|]. split.
  { unfold ctx, validated in Hf. cbn [validationError] in Hf.
    destruct (ResourceProperties event !! "Name") as [[]|]; try discriminate Hf. eauto. }
  destruct Hwhy as [[-> HL] | (-> & HL & HA)]; [left | right]; (split; [reflexivity|]).
  - unfold ctx, validated in HL. cbn [passwordLength] in HL.
    destruct (ResourceProperties event !! "Length") as [[]|]; cbn in HL;
      try (unfold maxAlloc in HL; lia). eauto.
  - unfold ctx, validated in HA. cbn [alphabet] in HA.
    destruct (ResourceProperties event !! "Alphabet") as [[]|]; cbn in HA;
      try discriminate HA. eauto.
Qed.

(** X15: the two panics do happen.  For a [Custom::Password] request with
    a string [Name]: a negative int [Length] makes [Process] panic in the
    slice allocation before anything outside is called; and a string
    [Alphabet] whose length is a multiple of 256, with a length [L] between
    1 and [maxAlloc] (the int [Length], or 30 without one), makes it panic
    with a division by zero once the entropy source has delivered: the
    random bytes are drawn and nothing is stored. *)
Theorem Process_Password_panics st (sg : loc) g event name :
  heap st !! sg = Some g ->
  ResourceType event = "Custom::Password" ->
  ResourceProperties event !! "Name" = Some (VString name) ->
  (forall n, ResourceProperties event !! "Length" = Some (VInt n) -> (n < 0)%Z ->
     exists st',
       Process env sg event st = Panics makeslice_len_out_of_range st' /\
       world st' = world st /\ calls st' = calls st) /\
  (forall a L src w,
     ResourceProperties event !! "Alphabet" = Some (VString a) ->
     (Z.of_nat (String.length a) mod 256 = 0)%Z ->
     ResourceProperties event !! "Length" = Some (VInt L) \/
     ((forall n, ResourceProperties event !! "Length" <> Some (VInt n)) /\ L = 30%Z) ->
     (1 <= L <= maxAlloc)%Z ->
     rand_Read env (Z.to_nat L) (world st) = (src, None, w) ->
     exists st',
       Process env sg event st = Panics integer_divide_by_zero st' /\
       world st' = w /\
       calls st' = call_rand_Read (Z.to_nat L) None :: calls st).
Proof.
  intros Hsg HP Hname. rewrite (Process_run _ _ _ _ Hsg).
  pose proof (validated_state_lookup st g event) as Hctx.
  set (ctx := validated (EC2Client g) (SSMClient g) event) in *.
  assert (Hf : validationError ctx = None).
  { unfold ctx, validated. cbn [validationError]. now rewrite Hname. }
  split.
  - intros n Hlen Hneg. eexists. split.
    + apply (dispatch_Password_outcome _ _ ctx event HP Hctx).
      apply (handlePassword_negative _ _ ctx Hctx Hf).
      unfold ctx, validated. cbn [passwordLength]. now rewrite Hlen.
    + split; reflexivity.
  - intros a L src w Ha Hmod Hlen HL Hrand.
    assert (EL : passwordLength ctx = L).
    { unfold ctx, validated. cbn [passwordLength].
      destruct Hlen as [-> | [Hno ->]]; [reflexivity|].
      now rewrite (assert_int_fails _ Hno). }
    assert (EA : alphabet ctx = a).
    { unfold ctx, validated. cbn [alphabet]. now rewrite Ha. }
    eexists. split.
    + apply (dispatch_Password_outcome _ _ ctx event HP Hctx).
      apply (handlePassword_panics _ _ ctx src w Hctx Hf).
      * now rewrite EL.
      * unfold byte_of_int. now rewrite EA.
      * now rewrite EL.
    + rewrite EL. split; reflexivity.
Qed.

(** *** The shape of the call log *)

Lemma handleKeyPair_calls st (sg : loc) :
  exists new,
    calls (final (handleKeyPair env sg st)) = new ++ calls st /\
    (new = [] \/ exists c i a, new = [call_ImportKeyPair c i a]).
Proof.
  unfold handleKeyPair, bind at 1, load at 1.
  destruct (heap st !! sg) as [g|] eqn:Hsg; [|exists []; eauto].
  destruct (validationError g); [exists []; eauto|].
  destruct (publicKey g).
  - unfold external. destruct (ec2_ImportKeyPair env _ _ (world st)) as [a w].
    eexists [_]. split; [reflexivity|]. right. eauto.
  - unfold bind at 1. rewrite (modify_run _ _ _ _ Hsg).
    unfold bind, load. cbn [heap]. rewrite lookup_insert_eq. exists []. eauto.
Qed.

Lemma handleRSAKey_calls st (sg : loc) :
  exists new,
    calls (final (handleRSAKey env sg st)) = new ++ calls st /\
    (new = [] \/ (exists a, new = [call_GenerateKey 2048 a]) \/
     exists c i a, new = [call_PutParameter c i a; call_GenerateKey 2048 None]).
Proof.
  unfold handleRSAKey, bind at 1, load at 1.
  destruct (heap st !! sg) as [g|] eqn:Hsg; [|exists []; eauto].
  destruct (validationError g) eqn:Hf; [exists []; eauto|].
  unfold bind at 1, external at 1.
  destruct (rsa_GenerateKey env 2048 (world st)) as [[k|e1] w1];
    [|eexists [_]; split; [reflexivity|]; eauto].
  destruct (rsa_Validate env k); [eexists [_]; split; [reflexivity|]; eauto|].
  destruct (ssh_NewPublicKey env k) as [pub|e2];
    [|eexists [_]; split; [reflexivity|]; eauto].
  unfold bind at 1, load at 1. cbn [heap]. rewrite Hsg.
  unfold bind at 1, createSSMParameter, bind at 1, load at 1. cbn [heap].
  rewrite Hsg, Hf. unfold external. cbn [world heap calls].
  destruct (ssm_PutParameter env _ _ w1) as [answer w2].
  eexists [_; _]. split; [reflexivity|]. right. right. eauto.
Qed.

Lemma handlePassword_calls st (sg : loc) :
  exists new,
    calls (final (handlePassword env sg st)) = new ++ calls st /\
    (new = [] \/ (exists n a, new = [call_rand_Read n a]) \/
     exists c i a n, new = [call_PutParameter c i a; call_rand_Read n None]).
Proof.
  unfold handlePassword, bind at 1, load at 1.
  destruct (heap st !! sg) as [g|] eqn:Hsg; [|exists []; eauto].
  destruct (validationError g) eqn:Hf; [exists []; eauto|].
  unfold bind at 1, make_bytes.
  destruct (decide _); [exists []; eauto|]. unfold ret at 1.
  unfold bind at 1, external at 1.
  destruct (rand_Read env _ (world st)) as [[src [e1|]] w1];
    [eexists [_]; split; [reflexivity|]; eauto|].
  unfold bind at 1, load at 1. cbn [heap]. rewrite Hsg.
  unfold bind at 1.
  match goal with |- context [password_loop env sg ?l ?n ?i ?b ?s] =>
    pose proof (password_loop_final sg l n i b s) as Hloop;
    destruct (password_loop env sg l n i b s) as [buff st1|p st1]
  end; cbn [final] in Hloop; subst st1;
    [|eexists [_]; split; [reflexivity|]; eauto].
  unfold bind at 1, load at 1. cbn [heap]. rewrite Hsg.
  unfold bind at 1, createSSMParameter, bind at 1, load at 1. cbn [heap].
  rewrite Hsg, Hf. unfold external. cbn [world heap calls].
  destruct (ssm_PutParameter env _ _ w1) as [answer w2].
  eexists [_; _]. split; [reflexivity|]. right. right. eauto 6.
Qed.

Lemma dispatch_calls st (l : loc) event :
  calls (final (dispatch env l event st)) =
    if decide (ResourceType event = "Custom::RSAKey")
    then calls (final (handleRSAKey env l st))
    else if decide (ResourceType event = "Custom::KeyPair")
    then calls (final (handleKeyPair env l st))
    else if decide (ResourceType event = "Custom::Password")
    then calls (final (handlePassword env l st))
    else calls st.
Proof.
  unfold dispatch. repeat destruct (decide _); unfold bind at 1, bind at 1.
  - destruct (handleRSAKey env l st) as [[] st1|]; [|reflexivity].
    unfold bind, load. now destruct (heap st1 !! l).
  - destruct (handleKeyPair env l st) as [? st1|]; [|reflexivity].
    unfold bind, load. now destruct (heap st1 !! l).
  - destruct (handlePassword env l st) as [[] st1|]; [|reflexivity].
    unfold bind, load. now destruct (heap st1 !! l).
  - unfold load. now destruct (heap st !! l).
Qed.

(** X16: what one run of [Process] calls outside, in order.  Nothing; or,
    for [Custom::KeyPair], one key import; or, for [Custom::RSAKey], one
    generation of a 2048-bit key, followed if it succeeded by at most one
    store write; or, for [Custom::Password], one read of random bytes,
    followed if it succeeded by at most one store write.  So a collaborator
    is called at most once per request, as the last call, and never again
    after a failure. *)
Theorem Process_calls st (sg : loc) event :
  exists new,
    calls (final (Process env sg event st)) = new ++ calls st /\
    (new = [] \/
     (ResourceType event = "Custom::KeyPair" /\
      exists c i a, new = [call_ImportKeyPair c i a]) \/
     (ResourceType event = "Custom::RSAKey" /\
      ((exists a, new = [call_GenerateKey 2048 a]) \/
       exists c i a, new = [call_PutParameter c i a; call_GenerateKey 2048 None])) \/
     (ResourceType event = "Custom::Password" /\
      ((exists n a, new = [call_rand_Read n a]) \/
       exists c i a n, new = [call_PutParameter c i a; call_rand_Read n None]))).
Proof.
  destruct (heap st !! sg) as [g|] eqn:Hsg.
  2: { rewrite Process_unfold. unfold bind, validateEvent, bind, load. rewrite Hsg.
       exists []. eauto. }
  rewrite (Process_run _ _ _ _ Hsg), dispatch_calls.
  destruct (decide (ResourceType event = "Custom::RSAKey")) as [HR|HR].
  { destruct (handleRSAKey_calls (validated_state st g event) (fresh (dom (heap st))))
      as (new & Hnew & Hshape).
    change (calls (validated_state st g event)) with (calls st) in Hnew.
    exists new. split; [exact Hnew|]. destruct Hshape as [->|Hshape]; eauto 8. }
  destruct (decide (ResourceType event = "Custom::KeyPair")) as [HK|HK].
  { destruct (handleKeyPair_calls (validated_state st g event) (fresh (dom (heap st))))
      as (new & Hnew & Hshape).
    change (calls (validated_state st g event)) with (calls st) in Hnew.
    exists new. split; [exact Hnew|]. destruct Hshape as [->|Hshape]; eauto 8. }
  destruct (decide (ResourceType event = "Custom::Password")) as [HP|HP].
  { destruct (handlePassword_calls (validated_state st g event) (fresh (dom (heap st))))
      as (new & Hnew & Hshape).
    change (calls (validated_state st g event)) with (calls st) in Hnew.
    exists new. split; [exact Hnew|]. destruct Hshape as [->|Hshape]; eauto 8. }
  exists []. eauto.
Qed.

End DispatcherProperties.

(** ** Further properties: main.go *)

Section Main.
Context {env : Env}.
Implicit Types (st : State env) (g : secretGenerator).

(** The state in which [handler] calls [Process], and the generator it
    built. *)
Lemma handler_run st ec2 ssm event :
  handler env ec2 ssm event st =
    Process env (fresh (dom (heap st))) event
      (mkState (<[fresh (dom (heap st)) := mkSecretGenerator ec2 ssm "" None "" 0%Z None]>
                  (heap st))
               (world st) (calls st)).
Proof. reflexivity. Qed.

(** X17: [handler] gives every invocation a generator of its own.  Its
    observable result is the one of [Process] on any existing generator
    that holds the same two clients, in the same world, whatever that
    generator's other fields are; it leaves every struct of the heap as it
    was; and if it panics, it is for a [Custom::Password] request, in the
    slice allocation or by a division by zero, never on a nil pointer. *)
Theorem handler_fresh_generator st ec2 ssm event :
  (forall st' (sg : loc) g,
     heap st' !! sg = Some g ->
     EC2Client g = ec2 -> SSMClient g = ssm ->
     world st' = world st -> calls st' = calls st ->
     observe (handler env ec2 ssm event st) = observe (Process env sg event st')) /\
  (forall (l : loc) g0,
     heap st !! l = Some g0 ->
     heap (final (handler env ec2 ssm event st)) !! l = Some g0) /\
  (forall p st',
     handler env ec2 ssm event st = Panics p st' ->
     ResourceType event = "Custom::Password" /\
     (p = makeslice_len_out_of_range \/ p = integer_divide_by_zero)).
Proof.
  rewrite handler_run.
  set (l0 := fresh (dom (heap st))).
  set (g0 := mkSecretGenerator ec2 ssm "" None "" 0%Z None).
  set (st0' := mkState _ _ _).
  assert (Hl0 : heap st0' !! l0 = Some g0) by (unfold st0'; cbn; apply lookup_insert_eq).
  split; [|split].
  - intros st' sg g Hsg <- <- Hw Hc.
    apply (Process_observe st0' st' l0 sg g0 g); try assumption; try reflexivity.
    + now symmetry.
    + now symmetry.
  - intros l g1 Hl. apply Process_frame. unfold st0'. cbn.
    rewrite lookup_insert_ne; [exact Hl|].
    intros E. pose proof (is_fresh (dom (heap st))) as Hfresh.
    apply Hfresh. fold l0. rewrite E. apply elem_of_dom. eauto.
  - intros p st' Hrun.
    exact (Process_panic_kind st0' l0 g0 event p st' Hl0 Hrun).
Qed.

Lemma dispatch_RSAKey_of st (l : loc) event response err st1 g1 :
  ResourceType event = "Custom::RSAKey" ->
  handleRSAKey env l st = Returns (response, err) st1 ->
  heap st1 !! l = Some g1 ->
  dispatch env l event st =
    Returns ("RSAKey:" +:+ Name g1,
             match response with
             | Some r => {["Response" := VResponseSecret r]}
             | None => {["Response" := VNil]}
             end, err) st1.
Proof.
  intros Hkind Hrun Hl. unfold dispatch. rewrite Hkind.
  destruct (decide _) as [_|H]; [|now destruct H].
  unfold bind at 1, bind at 1. rewrite Hrun.
  unfold bind, load. rewrite Hl. reflexivity.
Qed.

Lemma dispatch_KeyPair_of st (l : loc) event err st1 g1 :
  ResourceType event = "Custom::KeyPair" ->
  handleKeyPair env l st = Returns err st1 ->
  heap st1 !! l = Some g1 ->
  dispatch env l event st
  = Returns ("KeyPair:" +:+ Name g1, {["Response" := VNil]}, err) st1.
Proof.
  intros Hkind Hrun Hl. unfold dispatch. rewrite Hkind.
  destruct (decide _) as [H|_]; [discriminate H|].
  destruct (decide _) as [_|H]; [|now destruct H].
  unfold bind at 1, bind at 1. rewrite Hrun.
  unfold bind, load. rewrite Hl. reflexivity.
Qed.

Lemma handler_RSAKey_run st ec2 ssm event name k w pub :
  ResourceType event = "Custom::RSAKey" ->
  ResourceProperties event !! "Name" = Some (VString name) ->
  rsa_GenerateKey env 2048 (world st) = (inl k, w) ->
  rsa_Validate env k = None ->
  ssh_NewPublicKey env k = inl pub ->
  let input := rsa_input name (private_pem env k) in
  exists st',
    handler env ec2 ssm event st =
      Returns ("RSAKey:" +:+ name,
               {["Response" :=
                  VResponseSecret
                    (mkResponseSecret (Some 2048%Z) (Some (private_pem env k))
                       (Some (authorized_key env pub)) None)]},
               (ssm_PutParameter env ssm input w).1) st' /\
    world st' = (ssm_PutParameter env ssm input w).2 /\
    calls st' = call_PutParameter ssm input (ssm_PutParameter env ssm input w).1
                :: call_GenerateKey 2048 None :: calls st.
Proof.
  intros Hkind Hname Hgen Hval Hpub input. rewrite handler_run.
  set (g0 := mkSecretGenerator ec2 ssm "" None "" 0%Z None).
  set (st0' := mkState _ _ _).
  assert (Hl0 : heap st0' !! fresh (dom (heap st)) = Some g0)
    by (unfold st0'; cbn; apply lookup_insert_eq).
  rewrite (Process_run _ _ _ _ Hl0).
  pose proof (validated_state_lookup st0' g0 event) as Hctx.
  set (ctx := validated (EC2Client g0) (SSMClient g0) event) in *.
  assert (Hn : Name ctx = name) by (now apply validatedName_present).
  assert (Hf : validationError ctx = None).
  { unfold ctx, validated. cbn [validationError]. now rewrite Hname. }
  pose proof (handleRSAKey_run (validated_state st0' g0 event) _ ctx k w pub
                Hctx Hf Hgen Hval Hpub) as Hrun.
  cbn zeta in Hrun. rewrite Hn in Hrun.
  change (SSMClient ctx) with ssm in Hrun. fold input in Hrun.
  eexists. split.
  - rewrite (dispatch_RSAKey_of _ _ event _ _ _ ctx Hkind Hrun Hctx). now rewrite Hn.
  - split; reflexivity.
Qed.

Lemma handler_KeyPair_run st ec2 ssm event name pk :
  ResourceType event = "Custom::KeyPair" ->
  ResourceProperties event !! "Name" = Some (VString name) ->
  ResourceProperties event !! "PublicKey" = Some (VString pk) ->
  let input := import_input name pk in
  exists st',
    handler env ec2 ssm event st =
      Returns ("KeyPair:" +:+ name, {["Response" := VNil]},
               (ec2_ImportKeyPair env ec2 input (world st)).1) st' /\
    world st' = (ec2_ImportKeyPair env ec2 input (world st)).2 /\
    calls st' = call_ImportKeyPair ec2 input (ec2_ImportKeyPair env ec2 input (world st)).1
                :: calls st.
Proof.
  intros Hkind Hname Hpk input. rewrite handler_run.
  set (g0 := mkSecretGenerator ec2 ssm "" None "" 0%Z None).
  set (st0' := mkState _ _ _).
  assert (Hl0 : heap st0' !! fresh (dom (heap st)) = Some g0)
    by (unfold st0'; cbn; apply lookup_insert_eq).
  rewrite (Process_run _ _ _ _ Hl0).
  pose proof (validated_state_lookup st0' g0 event) as Hctx.
  set (ctx := validated (EC2Client g0) (SSMClient g0) event) in *.
  assert (Hn : Name ctx = name) by (now apply validatedName_present).
  assert (Hf : validationError ctx = None).
  { unfold ctx, validated. cbn [validationError]. now rewrite Hname. }
  assert (Hk : publicKey ctx = Some pk).
  { unfold ctx, validated. cbn [publicKey]. now rewrite Hpk. }
  pose proof (handleKeyPair_run (validated_state st0' g0 event) _ ctx pk Hctx Hf Hk) as Hrun.
  rewrite Hn in Hrun. change (EC2Client ctx) with ec2 in Hrun. fold input in Hrun.
  eexists. split.
  - rewrite (dispatch_KeyPair_of _ _ event _ _ ctx Hkind Hrun Hctx). now rewrite Hn.
  - split; reflexivity.
Qed.

(** X18: the start-up run of [main] never panics: [*data.PublicKey] is
    evaluated only on a response of the RSA generator returned without
    error, which always carries a public key, and neither of the two
    requests it sends can make [Process] panic. *)
Theorem main_never_panics st ec2 ssm :
  exists r st', main env ec2 ssm st = Returns r st'.
Proof.
  unfold main, bind at 1.
  destruct (handler env ec2 ssm _ st) as [[[id data] err] st1|p st1] eqn:H1.
  2: { rewrite handler_run in H1.
       eapply Process_panic_kind in H1; [|cbn; apply lookup_insert_eq].
       destruct H1 as (H1 & _). discriminate H1. }
  destruct err as [e|]; [unfold ret; eauto|].
  rewrite handler_run in H1.
  erewrite Process_run in H1 by (cbn; apply lookup_insert_eq).
  apply dispatch_payload in H1.
  destruct H1 as [[_ [(priv & pub & ->) | [_ [? He]]]]
                 | [[HP _] | (HR & _)]];
    [| discriminate He | discriminate HP | now destruct HR].
  rewrite lookup_singleton_eq. cbn [PublicKey].
  unfold bind at 1.
  destruct (handler env ec2 ssm _ st1) as [[[id2 data2] err2] st2|p st2] eqn:H2.
  2: { rewrite handler_run in H2.
       eapply Process_panic_kind in H2; [|cbn; apply lookup_insert_eq].
       destruct H2 as (H2 & _). discriminate H2. }
  destruct err2; unfold ret; eauto.
Qed.

(** X19: what the start-up run of [main] does when key generation and
    the store write succeed: it stores the private key under "/KEY_RSA" and
    then asks EC2 to import, under the name "KEYSSM", exactly the bytes of
    the authorized-key encoding of the public key it has just generated
    (the conversion to a string and back loses nothing); nothing else is
    called.  It ends printing the import's error, or serving after
    printing the nil response. *)
Theorem main_imports_generated_key st ec2 ssm k w pub w1 answer w2 :
  rsa_GenerateKey env 2048 (world st) = (inl k, w) ->
  rsa_Validate env k = None ->
  ssh_NewPublicKey env k = inl pub ->
  ssm_PutParameter env ssm (rsa_input "/KEY_RSA" (private_pem env k)) w = (None, w1) ->
  ec2_ImportKeyPair env ec2
    (mkImportKeyPairInput "KEYSSM" (ssh_MarshalAuthorizedKey env pub)) w1 = (answer, w2) ->
  exists st',
    main env ec2 ssm st =
      Returns (match answer with
               | Some e => printed_error e
               | None => serving (Some VNil)
               end) st' /\
    world st' = w2 /\
    calls st' =
      call_ImportKeyPair ec2
        (mkImportKeyPairInput "KEYSSM" (ssh_MarshalAuthorizedKey env pub)) answer
      :: call_PutParameter ssm (rsa_input "/KEY_RSA" (private_pem env k)) None
      :: call_GenerateKey 2048 None :: calls st.
Proof.
  intros Hgen Hval Hpub Hput Himport. unfold main, bind at 1.
  destruct (handler_RSAKey_run st ec2 ssm
              (mkEvent "Custom::RSAKey" {["Name" := VString "/KEY_RSA"]})
              "/KEY_RSA" k w pub eq_refl (lookup_singleton_eq _ _) Hgen Hval Hpub)
    as (st1 & Hrun1 & Hw1 & Hc1).
  cbn zeta in *. rewrite Hput in *. cbn [fst snd] in *.
  rewrite Hrun1. rewrite lookup_singleton_eq. cbn [PublicKey].
  unfold bind at 1.
  destruct (handler_KeyPair_run st1 ec2 ssm
              (mkEvent "Custom::KeyPair"
                 (<["Name" := VString "KEYSSM"]>
                    {["PublicKey" := VString (authorized_key env pub)]}))
              "KEYSSM" (authorized_key env pub) eq_refl)
    as (st2 & Hrun2 & Hw2 & Hc2).
  { apply lookup_insert_eq. }
  { cbn [ResourceProperties]. rewrite lookup_insert_ne by discriminate.
    apply lookup_singleton_eq. }
  cbn zeta in *.
  assert (Einput : import_input "KEYSSM" (authorized_key env pub)
                   = mkImportKeyPairInput "KEYSSM" (ssh_MarshalAuthorizedKey env pub)).
  { unfold import_input, authorized_key. now rewrite list_byte_of_string_of_list_byte. }
  rewrite Einput, Hw1, Himport in *. cbn [fst snd] in *.
  rewrite Hrun2. rewrite Hc1 in Hc2.
  destruct answer; unfold ret; eexists; (split; [|split]);
    first [exact Hw2 | exact Hc2 | idtac].
  - reflexivity.
  - now rewrite lookup_singleton_eq.
Qed.

End Main.

(** ** Further properties: requests from end to end *)

Section EndToEnd.
Context {env : Env}.
Implicit Types (st : State env) (g : secretGenerator).

Lemma dispatch_Password_of st (l : loc) event response err st1 g1 :
  ResourceType event = "Custom::Password" ->
  handlePassword env l st = Returns (response, err) st1 ->
  heap st1 !! l = Some g1 ->
  dispatch env l event st =
    Returns ("Password:" +:+ Name g1,
             match response with
             | Some r => {["Response" := VResponseSecret r]}
             | None => {["Response" := VNil]}
             end, err) st1.
Proof.
  intros Hkind Hrun Hl. unfold dispatch. rewrite Hkind.
  destruct (decide _) as [H|_]; [discriminate H|].
  destruct (decide _) as [H|_]; [discriminate H|].
  destruct (decide _) as [_|H]; [|now destruct H].
  unfold bind at 1, bind at 1. rewrite Hrun.
  unfold bind, load. rewrite Hl. reflexivity.
Qed.

(** X20: a [Custom::KeyPair] request with string [Name] and [PublicKey],
    from end to end: [Process] asks the generator's EC2 client, once, to
    import the bytes of the [PublicKey] string under the name [Name], calls
    nothing else, and returns the identifier ["KeyPair:<Name>"], the empty
    response and the service's answer as the error, unchanged. *)
Theorem Process_KeyPair_end_to_end st (sg : loc) g event name pk :
  heap st !! sg = Some g ->
  ResourceType event = "Custom::KeyPair" ->
  ResourceProperties event !! "Name" = Some (VString name) ->
  ResourceProperties event !! "PublicKey" = Some (VString pk) ->
  exists answer w st',
    ec2_ImportKeyPair env (EC2Client g)
      (mkImportKeyPairInput name (list_byte_of_string pk)) (world st) = (answer, w) /\
    Process env sg event st
    = Returns ("KeyPair:" +:+ name, {["Response" := VNil]}, answer) st' /\
    world st' = w /\
    calls st' = call_ImportKeyPair (EC2Client g)
                  (mkImportKeyPairInput name (list_byte_of_string pk)) answer
                :: calls st.
Proof.
  intros Hsg Hkind Hname Hpk. rewrite (Process_run _ _ _ _ Hsg).
  pose proof (validated_state_lookup st g event) as Hctx.
  set (ctx := validated (EC2Client g) (SSMClient g) event) in *.
  assert (Hn : Name ctx = name) by (now apply validatedName_present).
  assert (Hf : validationError ctx = None).
  { unfold ctx, validated. cbn [validationError]. now rewrite Hname. }
  assert (Hk : publicKey ctx = Some pk).
  { unfold ctx, validated. cbn [publicKey]. now rewrite Hpk. }
  pose proof (handleKeyPair_run (validated_state st g event) _ ctx pk Hctx Hf Hk) as Hrun.
  rewrite Hn in Hrun. change (EC2Client ctx) with (EC2Client g) in Hrun.
  unfold import_input in Hrun.
  change (world (validated_state st g event)) with (world st) in Hrun.
  destruct (ec2_ImportKeyPair env (EC2Client g) _ (world st)) as [answer w] eqn:E.
  exists answer, w. eexists. split; [reflexivity|]. split.
  - rewrite (dispatch_KeyPair_of _ _ event _ _ ctx Hkind Hrun Hctx). now rewrite Hn.
  - split; reflexivity.
Qed.

(** X21: a [Custom::RSAKey] request with a string [Name], from end to
    end, when the crypto library succeeds: [Process] generates one 2048-bit
    key, stores its PEM text once under the name [Name] through the
    generator's store client, and returns the identifier ["RSAKey:<Name>"],
    a response with the key length 2048, that PEM text and the
    authorized-key text of the public key, and the store's answer as the
    error: the response is there whether the store accepted or refused. *)
Theorem Process_RSAKey_end_to_end st (sg : loc) g event name k w pub :
  heap st !! sg = Some g ->
  ResourceType event = "Custom::RSAKey" ->
  ResourceProperties event !! "Name" = Some (VString name) ->
  rsa_GenerateKey env 2048 (world st) = (inl k, w) ->
  rsa_Validate env k = None ->
  ssh_NewPublicKey env k = inl pub ->
  exists answer w' st',
    ssm_PutParameter env (SSMClient g) (rsa_input name (private_pem env k)) w
    = (answer, w') /\
    Process env sg event st =
      Returns ("RSAKey:" +:+ name,
               {["Response" :=
                  VResponseSecret
                    (mkResponseSecret (Some 2048%Z) (Some (private_pem env k))
                       (Some (authorized_key env pub)) None)]},
               answer) st' /\
    world st' = w' /\
    calls st' = call_PutParameter (SSMClient g) (rsa_input name (private_pem env k)) answer
                :: call_GenerateKey 2048 None :: calls st.
Proof.
  intros Hsg Hkind Hname Hgen Hval Hpub. rewrite (Process_run _ _ _ _ Hsg).
  pose proof (validated_state_lookup st g event) as Hctx.
  set (ctx := validated (EC2Client g) (SSMClient g) event) in *.
  assert (Hn : Name ctx = name) by (now apply validatedName_present).
  assert (Hf : validationError ctx = None).
  { unfold ctx, validated. cbn [validationError]. now rewrite Hname. }
  pose proof (handleRSAKey_run (validated_state st g event) _ ctx k w pub
                Hctx Hf Hgen Hval Hpub) as Hrun.
  cbn zeta in Hrun. rewrite Hn in Hrun.
  change (SSMClient ctx) with (SSMClient g) in Hrun.
  destruct (ssm_PutParameter env (SSMClient g) _ w) as [answer w'] eqn:E.
  exists answer, w'. eexists. split; [reflexivity|]. split.
  - rewrite (dispatch_RSAKey_of _ _ event _ _ _ ctx Hkind Hrun Hctx). now rewrite Hn.
  - split; reflexivity.
Qed.

(** X22: a [Custom::Password] request with a string [Name] and no
    [Alphabet] and [Length] of the right type, from end to end, when the
    entropy source delivers: [Process] draws 30 bytes in one read, builds a
    password of 30 characters of the built-in alphabet, stores it once
    under the name [Name], and returns the identifier ["Password:<Name>"],
    a response carrying that password and the store's answer as the error.
    With the defaults the request cannot panic. *)
Theorem Process_Password_defaults st (sg : loc) g event name src w :
  heap st !! sg = Some g ->
  ResourceType event = "Custom::Password" ->
  ResourceProperties event !! "Name" = Some (VString name) ->
  (forall a, ResourceProperties event !! "Alphabet" <> Some (VString a)) ->
  (forall n, ResourceProperties event !! "Length" <> Some (VInt n)) ->
  rand_Read env 30 (world st) = (src, None, w) ->
  exists password answer w' st',
    ssm_PutParameter env (SSMClient g)
      (mkPutParameterInput "Password" name "SecureString" password false) w
    = (answer, w') /\
    Process env sg event st =
      Returns ("Password:" +:+ name,
               {["Response" :=
                  VResponseSecret (mkResponseSecret None None None (Some password))]},
               answer) st' /\
    String.length password = 30 /\
    (forall i c, String.get i password = Some c ->
       exists j, String.get j default_alphabet = Some c) /\
    world st' = w' /\
    calls st' = call_PutParameter (SSMClient g)
                  (mkPutParameterInput "Password" name "SecureString" password false) answer
                :: call_rand_Read 30 None :: calls st.
Proof.
  intros Hsg Hkind Hname Halpha Hlen Hrand. rewrite (Process_run _ _ _ _ Hsg).
  pose proof (validated_state_lookup st g event) as Hctx.
  set (ctx := validated (EC2Client g) (SSMClient g) event) in *.
  assert (Hn : Name ctx = name) by (now apply validatedName_present).
  assert (Hf : validationError ctx = None).
  { unfold ctx, validated. cbn [validationError]. now rewrite Hname. }
  assert (HA : alphabet ctx = default_alphabet).
  { unfold ctx, validated. cbn [alphabet]. now rewrite (assert_string_fails _ Halpha). }
  assert (HL : passwordLength ctx = 30%Z).
  { unfold ctx, validated. cbn [passwordLength]. now rewrite (assert_int_fails _ Hlen). }
  pose proof (handlePassword_run (validated_state st g event) _ ctx src w Hctx Hf) as Hrun.
  rewrite HL, HA in Hrun.
  specialize (Hrun ltac:(unfold maxAlloc; lia) ltac:(vm_compute; discriminate) Hrand).
  cbn zeta in Hrun. unfold password_input in Hrun. rewrite Hn in Hrun.
  change (SSMClient ctx) with (SSMClient g) in Hrun.
  change (Z.to_nat 30) with 30 in Hrun.
  set (password := password_of ctx src) in *.
  destruct (ssm_PutParameter env (SSMClient g) _ w) as [answer w'] eqn:E.
  exists password, answer, w'. eexists. split; [exact E|]. split.
  { rewrite (dispatch_Password_of _ _ event _ _ _ ctx Hkind Hrun Hctx). now rewrite Hn. }
  assert (Hget : forall i c, String.get i password = Some c ->
            i < 30 /\ exists j, String.get j default_alphabet = Some c).
  { intros i c Hc. unfold password, password_of in Hc. rewrite HL, HA in Hc.
    rewrite string_of_list_byte_get, !list_lookup_fmap in Hc.
    change (Z.to_nat 30) with 30 in Hc.
    destruct (seq 0 30 !! i) as [k|] eqn:Hk; [|discriminate].
    apply lookup_seq in Hk. cbn in Hc. injection Hc as <-. split; [lia|].
    eexists. apply pick_get. vm_compute. split; [reflexivity | discriminate]. }
  split; [|split; [|split; reflexivity]].
  - unfold password, password_of. rewrite HL.
    now rewrite string_of_list_byte_length, !length_fmap, length_seq.
  - intros i c Hc. now destruct (Hget i c Hc).
Qed.

End EndToEnd.

(** ** The further properties at concrete inputs *)

Lemma createSSMParameter_contract_witness :
  let g := context_of event_Password_K in
  let st := context_state g in
  heap st !! 1%positive = Some g /\
  validationError g = None /\
  createSSMParameter mock 1%positive "KeyName" "some secret" "secret description" false st
  = Returns None
      (@mkState mock (heap st) 0
         [call_PutParameter (ssm_client 0)
            (mkPutParameterInput "secret description" "KeyName" "SecureString"
               "some secret" false) None]).
Proof.
  cbn zeta. split; [reflexivity|]. split; [reflexivity|].
  exact (proj2 (createSSMParameter_contract (env:=mock)
                  (context_state (context_of event_Password_K)) 1%positive
                  (context_of event_Password_K)
                  "KeyName" "some secret" "secret description" false eq_refl) eq_refl).
Defined.

Lemma handleKeyPair_imports_witness :
  let g := context_of event_KeyPair_full in
  validationError g = None /\ publicKey g = Some "Somekey" /\
  exists input answer w,
    ec2_ImportKeyPair mock (EC2Client g) input 0 = (answer, w) /\
    ik_KeyName input = "SomeKey" /\
    string_of_list_byte (ik_PublicKeyMaterial input) = "Somekey" /\
    handleKeyPair mock 1%positive (context_state g) =
      Returns answer
        (@mkState mock (heap (context_state g)) w
           [call_ImportKeyPair (EC2Client g) input answer]).
Proof.
  cbn zeta. split; [reflexivity|]. split; [reflexivity|].
  exact (handleKeyPair_imports (env:=mock) (context_state (context_of event_KeyPair_full))
           1%positive (context_of event_KeyPair_full) "Somekey" eq_refl eq_refl eq_refl).
Defined.

Lemma handleKeyPair_fault_is_sticky_witness :
  let g := context_of event_KeyPair_K in
  validationError g = None /\ publicKey g = None /\
  exists e st',
    Error e = "Missing required property 'PublicKey'" /\
    handleKeyPair mock 1%positive (context_state g) = Returns (Some e) st' /\
    handleRSAKey mock 1%positive st' = Returns (None, Some e) st'.
Proof.
  cbn zeta. split; [reflexivity|]. split; [reflexivity|].
  destruct (handleKeyPair_fault_is_sticky (env:=mock)
              (context_state (context_of event_KeyPair_K)) 1%positive
              (context_of event_KeyPair_K) eq_refl eq_refl eq_refl)
    as (e & st' & He & Hrun & _ & _ & _ & Hrsa & _).
  exists e, st'. split; [exact He|]. split; [exact Hrun | exact Hrsa].
Defined.

Lemma handleRSAKey_stores_private_key_witness :
  let g := context_of event_RSAKey_some in
  validationError g = None /\
  exists input answer w',
    pp_Name input = "some" /\
    pp_Value input = private_pem mock 0 /\
    handleRSAKey mock 1%positive (context_state g) =
      Returns
        (Some (mkResponseSecret (Some 2048%Z) (Some (private_pem mock 0))
                 (Some (authorized_key mock 0)) None), answer)
        (@mkState mock (heap (context_state g)) w'
           [call_PutParameter (ssm_client 0) input answer; call_GenerateKey 2048 None]).
Proof.
  cbn zeta. split; [reflexivity|].
  destruct (handleRSAKey_stores_private_key (env:=mock)
              (context_state (context_of event_RSAKey_some)) 1%positive
              (context_of event_RSAKey_some) 0 1 0 eq_refl eq_refl eq_refl eq_refl eq_refl)
    as (input & answer & w' & _ & Hn & _ & _ & _ & Hv & Hrun).
  exists input, answer, w'. split; [exact Hn|]. split; [exact Hv | exact Hrun].
Defined.

Lemma handleRSAKey_generation_faults_witness :
  let g := context_of event_RSAKey_some in
  validationError g = None /\
  handleRSAKey mock_faulty 1%positive (faulty_state g 0) =
    Returns (None, Some cryptoError)
      (@mkState mock_faulty (heap (faulty_state g 0)) 1 [call_GenerateKey 2048 (Some cryptoError)]) /\
  handleRSAKey mock_faulty 1%positive (faulty_state g 1) =
    Returns (None, Some cryptoError)
      (@mkState mock_faulty (heap (faulty_state g 1)) 2 [call_GenerateKey 2048 None]) /\
  handleRSAKey mock_faulty 1%positive (faulty_state g 2) =
    Returns (None, Some cryptoError)
      (@mkState mock_faulty (heap (faulty_state g 2)) 3 [call_GenerateKey 2048 None]).
Proof.
  cbn zeta. split; [reflexivity|]. split; [|split].
  - apply (proj1 (handleRSAKey_generation_faults (env:=mock_faulty)
                    (faulty_state (context_of event_RSAKey_some) 0) 1%positive
                    (context_of event_RSAKey_some) eq_refl eq_refl)).
    reflexivity.
  - apply (proj2 (handleRSAKey_generation_faults (env:=mock_faulty)
                    (faulty_state (context_of event_RSAKey_some) 1) 1%positive
                    (context_of event_RSAKey_some) eq_refl eq_refl) 1 2 cryptoError).
    + reflexivity.
    + left. reflexivity.
  - apply (proj2 (handleRSAKey_generation_faults (env:=mock_faulty)
                    (faulty_state (context_of event_RSAKey_some) 2) 1%positive
                    (context_of event_RSAKey_some) eq_refl eq_refl) 2 3 cryptoError).
    + reflexivity.
    + right. split; reflexivity.
Defined.

Lemma handlePassword_stores_password_witness :
  let g := context_of event_Password_custom in
  validationError g = None /\ passwordLength g = 4%Z /\ alphabet g = "ab" /\
  exists password input answer w',
    pp_Name input = "K" /\
    pp_Description input = "Password" /\
    pp_Value input = password /\
    handlePassword mock 1%positive (context_state g) =
      Returns (Some (mkResponseSecret None None None (Some password)), answer)
        (@mkState mock (heap (context_state g)) w'
           [call_PutParameter (ssm_client 0) input answer; call_rand_Read 4 None]).
Proof.
  cbn zeta. split; [reflexivity|]. split; [reflexivity|]. split; [reflexivity|].
  destruct (handlePassword_stores_password (env:=mock)
              (context_state (context_of event_Password_custom)) 1%positive
              (context_of event_Password_custom) (fun i => byte_of_nat (0 + i)) 4)
    as (password & input & answer & w' & _ & Hn & _ & Hd & _ & Hv & Hrun).
  - reflexivity.
  - reflexivity.
  - vm_compute. split; discriminate.
  - vm_compute. discriminate.
  - reflexivity.
  - exists password, input, answer, w'. repeat split; assumption.
Defined.

Lemma handlePassword_entropy_fault_witness :
  let g := context_of event_Password_K in
  validationError g = None /\
  handlePassword mock_faulty 1%positive (faulty_state g 0) =
    Returns (None, Some cryptoError)
      (@mkState mock_faulty (heap (faulty_state g 0)) 1 [call_rand_Read 30 (Some cryptoError)]).
Proof.
  cbn zeta. split; [reflexivity|].
  apply (handlePassword_entropy_fault (env:=mock_faulty)
           (faulty_state (context_of event_Password_K) 0) 1%positive
           (context_of event_Password_K) (fun i => byte_of_nat (0 + i)) cryptoError 1).
  - reflexivity.
  - reflexivity.
  - vm_compute. split; discriminate.
  - reflexivity.
Defined.

Lemma handlePassword_uses_alphabet_prefix_witness :
  let g := context_of event_Password_custom in
  validationError g = None /\
  exists password err st',
    handlePassword mock 1%positive (context_state g) =
      Returns (Some (mkResponseSecret None None None (Some password)), err) st' /\
    forall i c, String.get i password = Some c ->
      exists j, (Z.of_nat j < 2)%Z /\ String.get j "ab" = Some c.
Proof.
  cbn zeta. split; [reflexivity|].
  apply (handlePassword_uses_alphabet_prefix (env:=mock)
           (context_state (context_of event_Password_custom)) 1%positive
           (context_of event_Password_custom) (fun i => byte_of_nat (0 + i)) 4).
  - reflexivity.
  - reflexivity.
  - vm_compute. split; discriminate.
  - vm_compute. discriminate.
  - reflexivity.
Defined.


Lemma validateEvent_fresh_context_witness :
  heap st0 !! 1%positive = Some generator0 /\
  exists (trg : loc) st' ctx,
    validateEvent mock 1%positive event_Password_K st0 = Returns trg st' /\
    heap st0 !! trg = None /\
    heap st' !! trg = Some ctx /\
    heap st' !! 1%positive = Some generator0 /\
    validationError ctx = None.
Proof.
  split; [reflexivity|].
  destruct (validateEvent_fresh_context (env:=mock) st0 1%positive generator0
              event_Password_K eq_refl)
    as (trg & st' & ctx & Hrun & Hnew & Hctx & Hold & _ & _ & _ & _ & Hfault).
  exists trg, st', ctx. split; [exact Hrun|]. split; [exact Hnew|]. split; [exact Hctx|].
  split.
  - rewrite Hold; [reflexivity|]. intros E. rewrite <- E in Hnew. discriminate Hnew.
  - apply Hfault. exists "K". reflexivity.
Defined.

Lemma validateEvent_keeps_properties_witness :
  heap st0 !! 1%positive = Some generator0 /\
  exists (trg : loc) st' ctx,
    validateEvent mock 1%positive event_Password_custom st0 = Returns trg st' /\
    heap st' !! trg = Some ctx /\
    Name ctx = "K" /\ publicKey ctx = None /\ alphabet ctx = "ab" /\
    passwordLength ctx = 4%Z.
Proof.
  split; [reflexivity|].
  destruct (validateEvent_keeps_properties (env:=mock) st0 1%positive generator0
              event_Password_custom eq_refl)
    as (trg & st' & ctx & Hrun & Hctx & Hn & _ & Hpk & Ha & Hl).
  exists trg, st', ctx. split; [exact Hrun|]. split; [exact Hctx|].
  split; [apply (Hn "K"); reflexivity|].
  split; [apply Hpk; intros pk; vm_compute; discriminate|].
  split; [apply Ha; reflexivity | apply Hl; reflexivity].
Defined.

Lemma Process_missing_Name_witness :
  heap st0 !! 1%positive = Some generator0 /\
  is_recognized (ResourceType event_RSAKey_empty) /\
  exists id e st',
    Process mock 1%positive event_RSAKey_empty st0
    = Returns (id, {["Response" := VNil]}, Some e) st' /\
    "Custom::" +:+ id = "Custom::RSAKey:Unknown" /\
    calls st' = [].
Proof.
  split; [reflexivity|]. split; [left; reflexivity|].
  destruct (Process_missing_Name (env:=mock) st0 1%positive generator0 event_RSAKey_empty
              eq_refl)
    as (id & e & st' & Hrun & Hid & _ & _ & Hc).
  - intros s. vm_compute. discriminate.
  - left. reflexivity.
  - exists id, e, st'. split; [exact Hrun|]. split; [exact Hid | exact Hc].
Defined.

Lemma Process_payload_witness :
  exists id data err st',
    Process mock 1%positive event_Password_K st0 = Returns (id, data, err) st' /\
    dom data = {["Response"]}.
Proof.
  destruct (proj2 (dispatch_Password (env:=mock) (validated_state st0 generator0 event_Password_K)
                     _ _ event_Password_K eq_refl
                     (validated_state_lookup st0 generator0 event_Password_K)))
    as (data & err & st' & Hrun).
  { right. vm_compute. split; [split|]; discriminate. }
  rewrite <- (Process_run st0 1%positive generator0 event_Password_K st0_generator) in Hrun.
  eexists _, data, err, st'. split; [exact Hrun|].
  exact (proj1 (Process_payload (env:=mock) st0 1%positive event_Password_K _ data err st' Hrun)).
Defined.

Lemma Process_panics_only_witness :
  heap st0 !! 1%positive = Some generator0 /\
  exists p st',
    Process mock 1%positive (event_Password_empty_alphabet 1) st0 = Panics p st' /\
    p = integer_divide_by_zero.
Proof.
  split; [reflexivity|].
  destruct (Process mock 1%positive (event_Password_empty_alphabet 1) st0)
    as [r st'|p st'] eqn:Hrun.
  1: { vm_compute in Hrun. discriminate Hrun. }
  destruct (Process_panics_only (env:=mock) st0 1%positive generator0
              (event_Password_empty_alphabet 1) p st' eq_refl Hrun)
    as (_ & _ & [[_ (n & Hn & Hbad)] | [Hp _]]).
  - exfalso. vm_compute in Hn. injection Hn as <-. unfold maxAlloc in Hbad. lia.
  - exists p, st'. split; [reflexivity | exact Hp].
Defined.

Lemma Process_Password_panics_witness :
  heap st0 !! 1%positive = Some generator0 /\
  (exists st',
     Process mock 1%positive event_Password_negative st0
     = Panics makeslice_len_out_of_range st' /\ calls st' = []) /\
  (exists st',
     Process mock 1%positive (event_Password_empty_alphabet 1) st0
     = Panics integer_divide_by_zero st' /\ calls st' = [call_rand_Read 1 None]).
Proof.
  split; [reflexivity|]. split.
  - destruct (proj1 (Process_Password_panics (env:=mock) st0 1%positive generator0
                       event_Password_negative "K" eq_refl eq_refl eq_refl) (-1)%Z)
      as (st' & Hrun & _ & Hc); [reflexivity | lia |].
    exists st'. split; [exact Hrun | exact Hc].
  - destruct (proj2 (Process_Password_panics (env:=mock) st0 1%positive generator0
                       (event_Password_empty_alphabet 1) "K" eq_refl eq_refl eq_refl)
                    "" 1%Z (fun i => byte_of_nat (0 + i)) 1)
      as (st' & Hrun & _ & Hc).
    + reflexivity.
    + reflexivity.
    + left. reflexivity.
    + unfold maxAlloc. lia.
    + reflexivity.
    + exists st'. split; [exact Hrun | exact Hc].
Defined.

Lemma handler_fresh_generator_witness :
  heap st0 !! 1%positive = Some generator0 /\
  observe (handler mock (ec2_client 0) (ssm_client 0) event_Password_K st0)
  = observe (Process mock 1%positive event_Password_K st0) /\
  heap (final (handler mock (ec2_client 0) (ssm_client 0) event_Password_K st0)) !! 1%positive
  = Some generator0.
Proof.
  destruct (handler_fresh_generator (env:=mock) st0 (ec2_client 0) (ssm_client 0)
              event_Password_K) as (Hobs & Hframe & _).
  split; [reflexivity|]. split.
  - apply (Hobs st0 1%positive generator0); reflexivity.
  - apply Hframe. reflexivity.
Defined.

Lemma main_imports_generated_key_witness :
  exists st',
    main mock (ec2_client 0) (ssm_client 0) (@mkState mock ∅ 0 [])
    = Returns (serving (Some VNil)) st' /\
    calls st' =
      [call_ImportKeyPair (ec2_client 0)
         (mkImportKeyPairInput "KEYSSM" (ssh_MarshalAuthorizedKey mock 0)) None;
       call_PutParameter (ssm_client 0) (rsa_input "/KEY_RSA" (private_pem mock 0)) None;
       call_GenerateKey 2048 None].
Proof.
  destruct (main_imports_generated_key (env:=mock) (@mkState mock ∅ 0 [])
              (ec2_client 0) (ssm_client 0) 0 1 0 1 None 1
              eq_refl eq_refl eq_refl eq_refl eq_refl)
    as (st' & Hrun & _ & Hc).
  exists st'. split; [exact Hrun | exact Hc].
Defined.

Lemma Process_KeyPair_end_to_end_witness :
  heap st0 !! 1%positive = Some generator0 /\
  exists answer w st',
    Process mock 1%positive event_KeyPair_full st0
    = Returns ("KeyPair:SomeKey", {["Response" := VNil]}, answer) st' /\
    world st' = w /\
    calls st' = [call_ImportKeyPair (ec2_client 0)
                   (mkImportKeyPairInput "SomeKey" (list_byte_of_string "Somekey")) answer].
Proof.
  split; [reflexivity|].
  destruct (Process_KeyPair_end_to_end (env:=mock) st0 1%positive generator0
              event_KeyPair_full "SomeKey" "Somekey" eq_refl eq_refl eq_refl eq_refl)
    as (answer & w & st' & _ & Hrun & Hw & Hc).
  exists answer, w, st'. split; [exact Hrun|]. split; [exact Hw | exact Hc].
Defined.

Lemma Process_RSAKey_end_to_end_witness :
  heap st0 !! 1%positive = Some generator0 /\
  exists answer st',
    Process mock 1%positive event_RSAKey_some st0 =
      Returns ("RSAKey:some",
               {["Response" :=
                  VResponseSecret
                    (mkResponseSecret (Some 2048%Z) (Some (private_pem mock 0))
                       (Some (authorized_key mock 0)) None)]},
               answer) st' /\
    calls st' = [call_PutParameter (ssm_client 0) (rsa_input "some" (private_pem mock 0)) answer;
                 call_GenerateKey 2048 None].
Proof.
  split; [reflexivity|].
  destruct (Process_RSAKey_end_to_end (env:=mock) st0 1%positive generator0
              event_RSAKey_some "some" 0 1 0 eq_refl eq_refl eq_refl eq_refl eq_refl eq_refl)
    as (answer & w' & st' & _ & Hrun & _ & Hc).
  exists answer, st'. split; [exact Hrun | exact Hc].
Defined.

Lemma Process_Password_defaults_witness :
  heap st0 !! 1%positive = Some generator0 /\
  exists password answer st',
    Process mock 1%positive event_Password_K st0 =
      Returns ("Password:K",
               {["Response" :=
                  VResponseSecret (mkResponseSecret None None None (Some password))]},
               answer) st' /\
    String.length password = 30.
Proof.
  split; [reflexivity|].
  destruct (Process_Password_defaults (env:=mock) st0 1%positive generator0
              event_Password_K "K" (fun i => byte_of_nat (0 + i)) 30 eq_refl eq_refl eq_refl)
    as (password & answer & w' & st' & _ & Hrun & Hlen & _).
  - intros a. vm_compute. discriminate.
  - intros n. vm_compute. discriminate.
  - reflexivity.
  - exists password, answer, st'. split; [exact Hrun | exact Hlen].
Defined.
